(** * Auravia "coming soon" server: the subscriber table and its endpoints

    A shallow embedding of the Express server (the email-capture API over
    the [email_subscribers] table) and of the page's client-side address
    check, with the properties of the subscription state machine.

    Layout:
    - [Js]         the JavaScript values the handlers see, and strings as
                   sequences of UTF-16 code units;
    - [Imports]    the functions the code calls and does not define;
    - the table, its rows and the SQL statements the server issues;
    - [prog]       handlers as programs that await queries and may throw;
    - the route handlers, transcribed statement by statement;
    - theorems. *)

From Stdlib Require Import List String Ascii ZArith NArith Bool Lia.
From Stdlib Require Import Sorted Permutation.
Import ListNotations.

Local Open Scope string_scope.
Local Open Scope list_scope.
Local Open Scope Z_scope.

(* ================================================================== *)
(** ** JavaScript values and string methods *)

Module Js.

(** What a parsed JSON body can hold in a field, plus [undefined] for an
    absent field. Arrays and objects only matter here through being
    truthy and having no [toLowerCase] method, so they share [Object]. *)
Inductive value : Type :=
| Undefined
| Null
| Boolean (b : bool)
| Number (n : Z)
| Str (s : string)
| Object.

(** [!!v]. *)
Definition truthy (v : value) : bool :=
  match v with
  | Undefined | Null => false
  | Boolean b => b
  | Number n => negb (n =? 0)
  | Str s => negb (String.eqb s EmptyString)
  | Object => true
  end.

(** A JavaScript string is kept as the UTF-8 text of its characters, and
    seen by [length] and by regular expressions as a sequence of UTF-16
    code units: [units] decodes it (a byte that cannot start a character,
    or a character cut short, reads as U+FFFD). *)
Definition continuation (b : ascii) : N := N.land (N_of_ascii b) 63.

Fixpoint units (s : string) : list N :=
  match s with
  | EmptyString => []
  | String b r =>
      let n := N_of_ascii b in
      if (n <? 128)%N then n :: units r
      else if (n <? 192)%N then 65533%N :: units r
      else if (n <? 224)%N then
        match r with
        | String c r' => (N.land n 31 * 64 + continuation c)%N :: units r'
        | _ => [65533%N]
        end
      else if (n <? 240)%N then
        match r with
        | String c (String d r') =>
            (N.land n 15 * 4096 + continuation c * 64 + continuation d)%N
            :: units r'
        | _ => [65533%N]
        end
      else
        match r with
        | String c (String d (String e r')) =>
            let cp := (N.land n 7 * 262144 + continuation c * 4096
                       + continuation d * 64 + continuation e)%N in
            (55296 + (cp - 65536) / 1024)%N
            :: (56320 + (cp - 65536) mod 1024)%N :: units r'
        | _ => [65533%N]
        end
  end.

(** [s.length] *)
Definition length (s : string) : nat := List.length (units s).

(** The code units the class [\s] of a regular expression matches:
    WhiteSpace and LineTerminator of ECMAScript (tab, line feed, vertical
    tab, form feed, carriage return, space, U+00A0, U+1680, U+2000 to
    U+200A, U+2028, U+2029, U+202F, U+205F, U+3000, U+FEFF). *)
Definition white_space (u : N) : bool :=
  ((9 <=? u) && (u <=? 13) || (u =? 32) || (u =? 160) || (u =? 5760)
   || (8192 <=? u) && (u <=? 8202) || (u =? 8232) || (u =? 8233)
   || (u =? 8239) || (u =? 8287) || (u =? 12288) || (u =? 65279))%N.

(** [a || b] on optional strings: the left operand when it is truthy. *)
Definition or_else (a b : option string) : option string :=
  match a with
  | Some s => if String.eqb s EmptyString then b else a
  | None => b
  end.

(** [a || 'literal'] *)
Definition or_literal (a : option string) (b : string) : string :=
  match a with
  | Some s => if String.eqb s EmptyString then b else s
  | None => b
  end.

End Js.

(* ================================================================== *)
(** ** What the code imports

    The functions the repository calls and does not define: [escape] and
    [isEmail] of the npm package [validator], and the methods
    [toLowerCase] and [trim] of the strings of the JavaScript engine.
    The server and the page are parametrised by them. *)

Record Imports : Type := {
  escape : string -> string;
  isEmail : string -> bool;
  toLowerCase : string -> string;
  trim : string -> string
}.

(** Errors a handler can see: a [TypeError] raised by the handler's own
    code, or an error of the database driver carrying an SQLSTATE [code]. *)
Inductive exn : Type :=
| TypeError
| PgError (code : string).

(** [error.code] *)
Definition error_code (e : exn) : option string :=
  match e with
  | TypeError => None
  | PgError c => Some c
  end.

Section Utility.

Variable V : Imports.

(** [function sanitizeEmail(email)]: on anything but a string the call
    [email.toLowerCase()] raises a [TypeError]. *)
Definition sanitizeEmail (email : Js.value) : exn + string :=
  match email with
  | Js.Str s => inr (escape V (trim V (toLowerCase V s)))
  | _ => inl TypeError
  end.

(** [function validateEmail(email)] *)
Definition validateEmail (email : string) : bool :=
  isEmail V email && (Js.length email <=? 255)%nat.

(** The normalised address of a string email: what [sanitizeEmail]
    returns on it. *)
Definition normalized (s : string) : string :=
  escape V (trim V (toLowerCase V s)).

End Utility.

(* ================================================================== *)
(** ** The client-side check of script.js

    [emailRegex = /^[^\s@]+@[^\s@]+\.[^\s@]+$/], matched (there is no
    [u] flag) against the code units of the string: no white space,
    exactly one [@], something before it, and after it a dot that is
    neither the first nor the last code unit. *)

Module Client.

Definition at_sign : N := 64.
Definition dot : N := 46.

(** [[^\s@]] *)
Definition plain (u : N) : bool :=
  negb (Js.white_space u) && negb (u =? at_sign)%N.

(** [^[^\s@]+$] *)
Fixpoint plain1 (s : list N) : bool :=
  match s with
  | [] => false
  | [u] => plain u
  | u :: r => plain u && plain1 r
  end.

(** [^[^\s@]+\.[^\s@]+$] *)
Fixpoint domain (s : list N) : bool :=
  match s with
  | [] => false
  | u :: r =>
      plain u &&
      match r with
      | [] => false
      | d :: r' => ((d =? dot)%N && plain1 r') || domain r
      end
  end.

(** [^[^\s@]+@[^\s@]+\.[^\s@]+$] on code units. *)
Fixpoint emailRegex_units (s : list N) : bool :=
  match s with
  | [] => false
  | u :: r =>
      plain u &&
      match r with
      | [] => false
      | d :: r' => ((d =? at_sign)%N && domain r') || emailRegex_units r
      end
  end.

(** [emailRegex.test(s)] *)
Definition emailRegex_test (s : string) : bool := emailRegex_units (Js.units s).

End Client.

(* ================================================================== *)
(** ** The table [email_subscribers] *)

(** One row. Columns as in the [CREATE TABLE] statement; the columns the
    server always fills are not optional here, [ip_address] is NULL when
    the request carries no address. Timestamps are microseconds since the
    epoch. *)
Record subscriber : Type := {
  id : Z;
  email : string;
  subscribed_at : Z;
  ip_address : option string;
  user_agent : string;
  is_active : bool;
  confirmed : bool;
  confirmation_token : string;
  unsubscribe_token : string
}.

(** The table (rows in insertion order) and the sequence behind [SERIAL]. *)
Record db : Type := {
  rows : list subscriber;
  next_id : Z
}.

Definition empty_db : db := {| rows := []; next_id := 1 |}.

Definition day : Z := 86400000000.

(** A time zone, by its calendar: [day_of t] is the local calendar day
    (counted from the epoch) the instant [t] falls on, [start_of D] the
    instant at which the local day [D] begins, which is what a date
    becomes when it is compared with a timestamp. The rules of the zone,
    clock changes included, are in these two functions; they agree in
    that an instant is on day [D] or later exactly from [start_of D] on. *)
Record zone : Type := {
  day_of : Z -> Z;
  start_of : Z -> Z;
  zone_law : forall D t : Z, start_of D <= t <-> D <= day_of t
}.

(** A zone at a constant offset from UTC (microseconds). *)
Definition fixed_zone (offset : Z) : zone :=
  {| day_of := fun t => (t + offset) / day;
     start_of := fun D => D * day - offset;
     zone_law :=
       ltac:(intros D t; unfold day; split; intros H;
             [ apply Z.div_le_lower_bound; lia
             | assert (D * 86400000000 <= t + offset);
               [ pose proof (Z.mul_div_le (t + offset) 86400000000
                               ltac:(lia)); nia
               | lia ] ]) |}.

(** What the database server supplies while a statement runs:
    [CURRENT_TIMESTAMP], the value [gen_random_uuid()] returns, the
    session time zone, and which texts the input function of the type
    [inet] accepts. *)
Record db_env : Type := {
  current_timestamp : Z;
  gen_random_uuid : string;
  time_zone : zone;
  inet_in : string -> bool
}.

(** [CURRENT_DATE] compared with a timestamp: the beginning of the
    local day the current instant falls on. *)
Definition current_date (env : db_env) : Z :=
  start_of (time_zone env)
    (day_of (time_zone env) (current_timestamp env)).

(** [CURRENT_DATE - INTERVAL 'n days'] compared with a timestamp: the
    beginning of the local day [n] calendar days before today. *)
Definition days_ago (env : db_env) (n : Z) : Z :=
  start_of (time_zone env)
    (day_of (time_zone env) (current_timestamp env) - n).

(** The last value of the sequence of a [SERIAL] column. *)
Definition serial_max : Z := 2147483647.

(** Whether the parameter bound to the [INET] column is accepted: NULL,
    or a text the input function of the type reads. *)
Definition inet_ok (env : db_env) (ip : option string) : bool :=
  match ip with
  | None => true
  | Some a => inet_in env a
  end.

(** The row of [GET /api/stats]. The driver hands the [bigint] counts
    over in decimal notation; the model keeps the numbers. *)
Record stats_row : Type := {
  total_subscribers : Z;
  active_subscribers : Z;
  confirmed_subscribers : Z;
  today_signups : Z;
  week_signups : Z;
  month_signups : Z
}.

(** A row of [GET /api/export]:
    [email, subscribed_at, is_active, confirmed]. *)
Definition export_row : Type := (string * Z * bool * bool)%type.

(** The statements the server sends, indexed by what [pool.query] resolves
    to (the rows, or the row count where the handler ignores the rows). *)
Inductive query : Type -> Type :=
| SelectByEmail (e : string) : query (list (Z * bool))
| Reactivate (e : string) : query nat
| InsertSubscriber (e : string) (ip : option string) (ua : string)
    (ctok : string) : query nat
| Deactivate (tok : string) : query (list string)
| SelectStats : query stats_row
| SelectExport : query (list export_row)
| SelectOne : query nat.

(** SQLSTATE of a unique violation. *)
Definition unique_violation : string := "23505".

(** SQLSTATE of a text the input function of a type cannot read. *)
Definition invalid_text_representation : string := "22P02".

(** SQLSTATE of [nextval] on a sequence that has given its last value. *)
Definition sequence_limit_exceeded : string := "2200H".

Section Statements.

Variable env : db_env.

(** [SELECT id, is_active FROM email_subscribers WHERE email = $1] *)
Definition select_by_email (e : string) (t : list subscriber)
  : list (Z * bool) :=
  map (fun r => (id r, is_active r))
      (filter (fun r => String.eqb (email r) e) t).

Definition reactivated (r : subscriber) : subscriber :=
  {| id := id r; email := email r;
     subscribed_at := current_timestamp env;
     ip_address := ip_address r; user_agent := user_agent r;
     is_active := true; confirmed := confirmed r;
     confirmation_token := confirmation_token r;
     unsubscribe_token := unsubscribe_token r |}.

(** [UPDATE email_subscribers SET is_active = true,
     subscribed_at = CURRENT_TIMESTAMP WHERE email = $1] *)
Definition reactivate (e : string) (t : list subscriber) : list subscriber :=
  map (fun r => if String.eqb (email r) e then reactivated r else r) t.

Definition deactivated (r : subscriber) : subscriber :=
  {| id := id r; email := email r;
     subscribed_at := subscribed_at r;
     ip_address := ip_address r; user_agent := user_agent r;
     is_active := false; confirmed := confirmed r;
     confirmation_token := confirmation_token r;
     unsubscribe_token := unsubscribe_token r |}.

(** [UPDATE email_subscribers SET is_active = false
     WHERE unsubscribe_token = $1 RETURNING email] *)
Definition deactivate (tok : string) (t : list subscriber) : list subscriber :=
  map (fun r => if String.eqb (unsubscribe_token r) tok
                then deactivated r else r) t.

Definition deactivate_returning (tok : string) (t : list subscriber)
  : list string :=
  map email (filter (fun r => String.eqb (unsubscribe_token r) tok) t).

(** The row an [INSERT INTO email_subscribers (email, ip_address,
    user_agent, confirmation_token)] builds: the other columns take
    their defaults. *)
Definition new_row (i : Z) (e : string) (ip : option string)
    (ua ctok : string) : subscriber :=
  {| id := i; email := e;
     subscribed_at := current_timestamp env;
     ip_address := ip; user_agent := ua;
     is_active := true; confirmed := false;
     confirmation_token := ctok;
     unsubscribe_token := gen_random_uuid env |}.

(** The two [UNIQUE] constraints, checked against the row to insert. *)
Definition conflicts (n : subscriber) (t : list subscriber) : bool :=
  existsb (fun r => String.eqb (email r) (email n)
                    || String.eqb (unsubscribe_token r) (unsubscribe_token n)) t.

(** [COUNT( * ) FILTER (WHERE b)], one row at a time. *)
Definition count_if (b : bool) (c : Z) : Z := if b then c + 1 else c.

Definition stats_zero : stats_row :=
  {| total_subscribers := 0; active_subscribers := 0;
     confirmed_subscribers := 0; today_signups := 0;
     week_signups := 0; month_signups := 0 |}.

Definition stats_add (acc : stats_row) (r : subscriber) : stats_row :=
  {| total_subscribers := total_subscribers acc + 1;
     active_subscribers :=
       count_if (Bool.eqb (is_active r) true) (active_subscribers acc);
     confirmed_subscribers :=
       count_if (Bool.eqb (confirmed r) true) (confirmed_subscribers acc);
     today_signups :=
       count_if (current_date env <=? subscribed_at r) (today_signups acc);
     week_signups :=
       count_if (days_ago env 7 <=? subscribed_at r) (week_signups acc);
     month_signups :=
       count_if (days_ago env 30 <=? subscribed_at r) (month_signups acc) |}.

(** The aggregate query of [GET /api/stats]: one pass over the table. *)
Definition select_stats (t : list subscriber) : stats_row :=
  fold_left stats_add t stats_zero.

(** [ORDER BY subscribed_at DESC], by insertion. *)
Fixpoint insert_desc (r : subscriber) (l : list subscriber) : list subscriber :=
  match l with
  | [] => [r]
  | x :: l' =>
      if subscribed_at x <? subscribed_at r then r :: l
      else x :: insert_desc r l'
  end.

Definition order_desc (t : list subscriber) : list subscriber :=
  fold_right insert_desc [] t.

(** [SELECT email, subscribed_at, is_active, confirmed FROM
     email_subscribers WHERE is_active = true ORDER BY subscribed_at DESC] *)
Definition select_export (t : list subscriber) : list export_row :=
  map (fun r => (email r, subscribed_at r, is_active r, confirmed r))
      (order_desc (filter (fun r => Bool.eqb (is_active r) true) t)).

(** One statement against the table. The [INSERT] is rejected when the
    address bound to the [INET] column cannot be read, then when the [id]
    sequence is exhausted, both before anything changes, then when a
    [UNIQUE] constraint is violated, which still consumes a value of the
    sequence. (The address the route inserts is at most 255 code units
    long, within [VARCHAR(255)].) *)
Definition exec_query (R : Type) (q : query R) (d : db) : (exn + R) * db :=
  match q in query R return (exn + R) * db with
  | SelectByEmail e => (inr (select_by_email e (rows d)), d)
  | Reactivate e =>
      (inr (List.length (filter (fun r => String.eqb (email r) e) (rows d))),
       {| rows := reactivate e (rows d); next_id := next_id d |})
  | InsertSubscriber e ip ua ctok =>
      if negb (inet_ok env ip)
      then (inl (PgError invalid_text_representation), d)
      else if serial_max <? next_id d
      then (inl (PgError sequence_limit_exceeded), d)
      else
        let n := new_row (next_id d) e ip ua ctok in
        if conflicts n (rows d)
        then (inl (PgError unique_violation),
              {| rows := rows d; next_id := next_id d + 1 |})
        else (inr 1%nat,
              {| rows := rows d ++ [n]; next_id := next_id d + 1 |})
  | Deactivate tok =>
      (inr (deactivate_returning tok (rows d)),
       {| rows := deactivate tok (rows d); next_id := next_id d |})
  | SelectStats => (inr (select_stats (rows d)), d)
  | SelectExport => (inr (select_export (rows d)), d)
  | SelectOne => (inr 1%nat, d)
  end.

End Statements.

(* ================================================================== *)
(** ** Handlers as programs

    An [async] handler is a tree: it returns, throws, or awaits a query
    and continues with what the driver resolved or rejected with. *)

Inductive prog (A : Type) : Type :=
| Ret (a : A)
| Throw (e : exn)
| Await (R : Type) (q : query R) (k : exn + R -> prog A).

Arguments Ret {A} a.
Arguments Throw {A} e.
Arguments Await {A R} q k.

Fixpoint bind {A B : Type} (p : prog A) (f : A -> prog B) : prog B :=
  match p with
  | Ret a => f a
  | Throw e => Throw e
  | Await q k => Await q (fun r => bind (k r) f)
  end.

(** [await pool.query(...)]: a rejected promise throws at the [await]. *)
Definition await {R : Type} (q : query R) : prog R :=
  Await q (fun r => match r with inl e => Throw e | inr x => Ret x end).

(** A synchronous call that returns or throws. *)
Definition call {A : Type} (r : exn + A) : prog A :=
  match r with inl e => Throw e | inr a => Ret a end.

(** [try { p } catch (error) { h error }] *)
Fixpoint try_catch {A : Type} (p : prog A) (h : exn -> prog A) : prog A :=
  match p with
  | Ret a => Ret a
  | Throw e => h e
  | Await q k => Await q (fun r => try_catch (k r) h)
  end.

Notation "x <- p ;; f" := (bind p (fun x => f))
  (at level 61, p at next level, right associativity).

(** A query as it was answered. *)
Inductive event : Type :=
| Ev (R : Type) (q : query R) (r : exn + R).

Arguments Ev {R} q r.

Section Run.

(** Any store: a state and a way to answer one statement. *)
Context {S : Type} (exec : forall R : Type, query R -> S -> (exn + R) * S).

(** Run a program against the store; the outcome, the store afterwards
    and the statements issued, in order, with their answers. *)
Fixpoint run {A : Type} (p : prog A) (s : S) : (exn + A) * S * list event :=
  match p with
  | Ret a => (inr a, s, [])
  | Throw e => (inl e, s, [])
  | Await q k =>
      let '(r, s1) := exec _ q s in
      let '(o, s2, tr) := run (k r) s1 in
      (o, s2, Ev q r :: tr)
  end.

End Run.

(* ================================================================== *)
(** ** Requests and responses *)

(** The parts of an Express request the handlers read. *)
Record request : Type := {
  body_email : Js.value;              (* req.body.email *)
  ip : option string;                 (* req.ip *)
  remoteAddress : option string;      (* req.connection.remoteAddress *)
  get_User_Agent : option string      (* req.get('User-Agent') *)
}.

Inductive body : Type :=
| Json (success : bool) (message : string)
| JsonStats (success : bool) (data : stats_row)
| JsonExport (success : bool) (data : list export_row) (count : nat)
| JsonHealth (success : bool) (message : string) (timestamp : Z)
| Html (h2 : string) (p : list string).

Record response : Type := {
  status : Z;
  sent : body
}.

(** [res.status(c).json({success, message})] *)
Definition json (c : Z) (success : bool) (message : string) : response :=
  {| status := c; sent := Json success message |}.

(* ================================================================== *)
(** ** The routes *)

Section Routes.

Variable V : Imports.

(** The [try] block of [app.post('/api/subscribe', ...)].
    [confirmationToken] is what
    [require('crypto').randomBytes(32).toString('hex')] returns. *)
Definition subscribe_try (req : request) (confirmationToken : string)
  : prog response :=
  let email := body_email req in
  if negb (Js.truthy email) then
    Ret (json 400 false "Email address is required.")
  else
    sanitizedEmail <- call (sanitizeEmail V email) ;;
    if negb (validateEmail V sanitizedEmail) then
      Ret (json 400 false "Please enter a valid email address.")
    else
      existingSubscriber <- await (SelectByEmail sanitizedEmail) ;;
      match existingSubscriber with
      | (_, row0_is_active) :: _ =>
          if row0_is_active then
            Ret (json 409 false
                   "This email is already subscribed to our newsletter.")
          else
            _ <- await (Reactivate sanitizedEmail) ;;
            Ret (json 200 true
                   "Welcome back! You've been resubscribed to our newsletter.")
      | [] =>
          _ <- await (InsertSubscriber sanitizedEmail
                        (Js.or_else (ip req) (remoteAddress req))
                        (Js.or_literal (get_User_Agent req) "Unknown")
                        confirmationToken) ;;
          Ret (json 201 true
                 "Thank you! You'll be notified when Auravia launches.")
      end.

(** The [catch] block. *)
Definition subscribe_catch (error : exn) : prog response :=
  match error_code error with
  | Some c =>
      if String.eqb c unique_violation
      then Ret (json 409 false "This email is already subscribed.")
      else Ret (json 500 false "Something went wrong. Please try again later.")
  | None => Ret (json 500 false "Something went wrong. Please try again later.")
  end.

(** [app.post('/api/subscribe', emailSignupLimiter, async (req, res) => ...)],
    for a request the rate limiters let through. *)
Definition subscribe (req : request) (confirmationToken : string)
  : prog response :=
  try_catch (subscribe_try req confirmationToken) subscribe_catch.

Definition invalid_link_page : body :=
  Html "Invalid Unsubscribe Link"
       ["This unsubscribe link is invalid or has already been used."].

Definition unsubscribed_page : body :=
  Html "Successfully Unsubscribed"
       ["You have been successfully unsubscribed from Auravia's newsletter.";
        "We're sorry to see you go!"].

Definition error_page : body :=
  Html "Error" ["Something went wrong. Please try again later."].

(** [app.get('/api/unsubscribe/:token', ...)] *)
Definition unsubscribe (token : string) : prog response :=
  try_catch
    (result <- await (Deactivate token) ;;
     match result with
     | [] => Ret {| status := 404; sent := invalid_link_page |}
     | _ :: _ => Ret {| status := 200; sent := unsubscribed_page |}
     end)
    (fun _ => Ret {| status := 500; sent := error_page |}).

(** [app.get('/api/stats', ...)] *)
Definition stats : prog response :=
  try_catch
    (st <- await SelectStats ;;
     Ret {| status := 200; sent := JsonStats true st |})
    (fun _ => Ret (json 500 false "Unable to fetch statistics.")).

(** [app.get('/api/export', ...)] *)
Definition export : prog response :=
  try_catch
    (subscribers <- await SelectExport ;;
     Ret {| status := 200;
            sent := JsonExport true subscribers (List.length subscribers) |})
    (fun _ => Ret (json 500 false "Unable to export subscribers.")).

(** [app.get('/api/health', ...)]; [now] is [new Date()]. *)
Definition health (now : Z) : prog response :=
  try_catch
    (_ <- await SelectOne ;;
     Ret {| status := 200;
            sent := JsonHealth true "Server and database are healthy" now |})
    (fun _ => Ret (json 500 false "Database connection failed")).

(** The operations of the API. *)
Inductive operation : Type :=
| PostSubscribe (req : request) (confirmationToken : string)
| GetUnsubscribe (token : string)
| GetStats
| GetExport
| GetHealth (now : Z).

Definition handler (op : operation) : prog response :=
  match op with
  | PostSubscribe req ctok => subscribe req ctok
  | GetUnsubscribe token => unsubscribe token
  | GetStats => stats
  | GetExport => export
  | GetHealth now => health now
  end.

(** One request served alone against the table: the response (or the
    error that escaped the handler) and the table afterwards. *)
Definition serve (env : db_env) (op : operation) (d : db)
  : (exn + response) * db :=
  fst (run (exec_query env) (handler op) d).

(** Requests served one after the other, each with the clock and the
    random values of its own moment. *)
Fixpoint serve_all (l : list (db_env * operation)) (d : db) : db :=
  match l with
  | [] => d
  | (env, op) :: l' => serve_all l' (snd (serve env op d))
  end.

(** The tables the server can produce from an empty one. *)
Inductive reachable : db -> Prop :=
| reach_empty : reachable empty_db
| reach_serve (env : db_env) (op : operation) (d : db) :
    reachable d -> reachable (snd (serve env op d)).

End Routes.

(* ================================================================== *)
(** ** A store shared with concurrent requests

    The handlers do not use transactions: between two statements of one
    request the statements of other requests may run. [meanwhile] lists,
    for each statement still to come, what the other requests execute
    just before it. *)

Inductive stmt : Type :=
| Stmt (env : db_env) (R : Type) (q : query R).

Arguments Stmt env {R} q.

Definition exec_stmt (d : db) (st : stmt) : db :=
  match st with
  | Stmt env q => snd (exec_query env _ q d)
  end.

Record shared : Type := {
  table : db;
  meanwhile : list (list stmt)
}.

Definition exec_shared (env : db_env) (R : Type) (q : query R) (s : shared)
  : (exn + R) * shared :=
  let d1 := fold_left exec_stmt (hd [] (meanwhile s)) (table s) in
  let '(r, d2) := exec_query env R q d1 in
  (r, {| table := d2; meanwhile := tl (meanwhile s) |}).

(** The [INSERT] of a request was rejected with a unique violation. *)
Definition insert_conflicted (ev : event) : bool :=
  match ev with
  | Ev q r =>
      match q, r with
      | InsertSubscriber _ _ _ _, inl e =>
          match error_code e with
          | Some c => String.eqb c unique_violation
          | None => false
          end
      | _, _ => false
      end
  end.

(* ================================================================== *)
(** ** Invariants of the table *)

(** The two [UNIQUE] constraints, and what the subscription route
    guarantees of every address it stores. *)
Record well_formed (V : Imports) (d : db) : Prop := {
  wf_email : NoDup (map email (rows d));
  wf_token : NoDup (map unsubscribe_token (rows d));
  wf_valid : Forall (fun r => validateEmail V (email r) = true) (rows d)
}.

(** Two versions of one row: the identity, the address and the
    unsubscribe token agree. *)
Definition same_key (r r' : subscriber) : Prop :=
  id r = id r' /\ email r = email r' /\
  unsubscribe_token r = unsubscribe_token r'.

(** [t'] keeps every row of [t], in place and with its key, and may have
    new rows after them. *)
Definition preserved (t t' : list subscriber) : Prop :=
  exists kept added, t' = kept ++ added /\ Forall2 same_key t kept.

(** The number of rows that satisfy [p]. *)
Definition count (p : subscriber -> bool) (t : list subscriber) : Z :=
  Z.of_nat (List.length (filter p t)).

(** The example instance used to run the handlers on concrete requests:
    [escape] replaces the characters & < > ' / and the double quote by
    HTML entities, [isEmail] is the page's own regular expression, and
    the two string methods are ASCII stand-ins. The theorems hold for
    every instance. *)
Module Sample.

(** ASCII stand-ins for the two string methods: [lower] lowers the
    letters A to Z, [strip] removes the six ASCII white-space characters
    at both ends. *)
Definition is_upper (c : ascii) : bool :=
  ((65 <=? nat_of_ascii c) && (nat_of_ascii c <=? 90))%nat.

Definition lower_char (c : ascii) : ascii :=
  if is_upper c then ascii_of_nat (nat_of_ascii c + 32) else c.

Fixpoint lower (s : string) : string :=
  match s with
  | EmptyString => EmptyString
  | String c r => String (lower_char c) (lower r)
  end.

Definition is_space (c : ascii) : bool :=
  let n := nat_of_ascii c in
  ((9 <=? n) && (n <=? 13) || (n =? 32))%nat.

Fixpoint stripStart (s : string) : string :=
  match s with
  | EmptyString => EmptyString
  | String c r => if is_space c then stripStart r else s
  end.

Fixpoint stripEnd (s : string) : string :=
  match s with
  | EmptyString => EmptyString
  | String c r =>
      match stripEnd r with
      | EmptyString => if is_space c then EmptyString else String c EmptyString
      | r' => String c r'
      end
  end.

Definition strip (s : string) : string := stripEnd (stripStart s).

Definition escape_char (c : ascii) : string :=
  match nat_of_ascii c with
  | 38%nat => "&amp;"
  | 34%nat => "&quot;"
  | 39%nat => "&#x27;"
  | 60%nat => "&lt;"
  | 62%nat => "&gt;"
  | 47%nat => "&#x2F;"
  | _ => String c EmptyString
  end.

Fixpoint escape_string (s : string) : string :=
  match s with
  | EmptyString => EmptyString
  | String c r => (escape_char c ++ escape_string r)%string
  end.

Definition validator : Imports :=
  {| escape := escape_string; isEmail := Client.emailRegex_test;
     toLowerCase := lower; trim := strip |}.

(** A stand-in for the input function of [inet]: digits, dots, colons,
    hexadecimal letters and a slash, at least two characters. *)
Definition inet_char (c : ascii) : bool :=
  let n := nat_of_ascii c in
  ((46 <=? n) && (n <=? 58) || (65 <=? n) && (n <=? 70)
   || (97 <=? n) && (n <=? 102))%nat.

Fixpoint inet_chars (s : string) : bool :=
  match s with
  | EmptyString => true
  | String c r => inet_char c && inet_chars r
  end.

Definition inet_text (s : string) : bool :=
  (2 <=? String.length s)%nat && inet_chars s.

Definition noon : db_env :=
  {| current_timestamp := 1700049600000000;
     gen_random_uuid := "3f2b8c1e-0000-4000-8000-000000000001";
     time_zone := fixed_zone 0;
     inet_in := inet_text |}.

Definition later : db_env :=
  {| current_timestamp := 1700053200000000;
     gen_random_uuid := "3f2b8c1e-0000-4000-8000-000000000002";
     time_zone := fixed_zone 0;
     inet_in := inet_text |}.

(** Central European time around the clock change of 29 October 2023
    (01:00 UTC): two hours ahead of UTC before it, one hour after. *)
Definition cet_2023 : zone :=
  {| day_of := fun t =>
       (t + (if t <? 1698541200000000 then 7200000000 else 3600000000)) / day;
     start_of := fun D =>
       if D * day - 7200000000 <? 1698541200000000
       then D * day - 7200000000
       else Z.max (D * day - 3600000000) 1698541200000000;
     zone_law :=
       ltac:(intros D t; unfold day;
             destruct (Z.ltb_spec t 1698541200000000);
             destruct (Z.ltb_spec (D * 86400000000 - 7200000000)
                         1698541200000000);
             split; intros Hh;
             try (apply Z.div_le_lower_bound; lia);
             try (match goal with
                  | |- _ <= t =>
                      match type of Hh with
                      | _ <= ?a / ?b =>
                          pose proof (Z.mul_div_le a b ltac:(lia))
                      end
                  end; nia)) |}.

(** Noon UTC on 1 November 2023, in that zone. *)
Definition november : db_env :=
  {| current_timestamp := 1698840000000000;
     gen_random_uuid := "3f2b8c1e-0000-4000-8000-000000000003";
     time_zone := cet_2023;
     inet_in := inet_text |}.

Definition post (e : string) : request :=
  {| body_email := Js.Str e; ip := Some "203.0.113.7";
     remoteAddress := None; get_User_Agent := Some "curl/8.0" |}.

Definition ada : subscriber :=
  {| id := 1; email := "ada@example.com";
     subscribed_at := 1700000000000000;
     ip_address := Some "203.0.113.7"; user_agent := "curl/8.0";
     is_active := true; confirmed := false;
     confirmation_token := "c0ffee";
     unsubscribe_token := "3f2b8c1e-0000-4000-8000-000000000000" |}.

Definition bob : subscriber :=
  {| id := 2; email := "bob@example.com";
     subscribed_at := 1690000000000000;
     ip_address := None; user_agent := "Unknown";
     is_active := false; confirmed := false;
     confirmation_token := "decade";
     unsubscribe_token := "3f2b8c1e-0000-4000-8000-00000000000b" |}.

Definition two : db := {| rows := [ada; bob]; next_id := 3 |}.

(** The race between check and insert: another request inserts the
    address after this request's [SELECT] found nothing. *)
Definition racing : shared :=
  {| table := two;
     meanwhile :=
       [ [];
         [ Stmt later
             (InsertSubscriber "carol@example.com" None "Unknown" "beef") ] ] |}.

End Sample.

(* ================================================================== *)
(** ** The form of the landing page (script.js) *)

(** The language of [emailRegex], read off the expression
    [^[^\s@]+@[^\s@]+\.[^\s@]+$]: three non-empty runs of code units that
    are neither white space nor [@] (U+0040), separated by an [@] and a
    dot (U+002E). *)
Definition emailRegex_language (s : list N) : Prop :=
  exists l a b : list N,
    s = l ++ 64%N :: a ++ 46%N :: b /\
    l <> [] /\ a <> [] /\ b <> [] /\
    forall u, In u (l ++ a ++ b) -> Js.white_space u = false /\ u <> 64%N.

(** Neither white space nor [@]. *)
Definition unit_ok (u : N) : Prop := Js.white_space u = false /\ u <> 64%N.

Module Page.

(** The elements the script reads and writes: the input box, the message
    line and the button. *)
Record form : Type := {
  emailInput_value : string;
  formMessage_textContent : string;
  formMessage_className : string;
  notifyBtn_textContent : string;
  notifyBtn_disabled : bool
}.

(** [function showMessage(message, type)] *)
Definition showMessage (message type : string) (f : form) : form :=
  {| emailInput_value := emailInput_value f;
     formMessage_textContent := message;
     formMessage_className := ("form-message " ++ type)%string;
     notifyBtn_textContent := notifyBtn_textContent f;
     notifyBtn_disabled := notifyBtn_disabled f |}.

(** The first two statements of the submit listener after reading the
    input: the message line is cleared. *)
Definition clear_message (f : form) : form :=
  {| emailInput_value := emailInput_value f;
     formMessage_textContent := EmptyString;
     formMessage_className := "form-message";
     notifyBtn_textContent := notifyBtn_textContent f;
     notifyBtn_disabled := notifyBtn_disabled f |}.

Definition set_button (label : string) (disabled : bool) (f : form) : form :=
  {| emailInput_value := emailInput_value f;
     formMessage_textContent := formMessage_textContent f;
     formMessage_className := formMessage_className f;
     notifyBtn_textContent := label;
     notifyBtn_disabled := disabled |}.

Definition set_input (v : string) (f : form) : form :=
  {| emailInput_value := v;
     formMessage_textContent := formMessage_textContent f;
     formMessage_className := formMessage_className f;
     notifyBtn_textContent := notifyBtn_textContent f;
     notifyBtn_disabled := notifyBtn_disabled f |}.

(** [emailForm.addEventListener('submit', ...)], up to the [fetch]: the
    form afterwards and, when a request is sent, the [email] of its JSON
    body. *)
Definition submit (V : Imports) (f : form) : form * option string :=
  let email := trim V (emailInput_value f) in
  let f := clear_message f in
  if String.eqb email EmptyString then
    (showMessage "Please enter your email address." "error" f, None)
  else if negb (Client.emailRegex_test email) then
    (showMessage "Please enter a valid email address." "error" f, None)
  else
    (set_button "Submitting..." true f, Some email).

Definition button_label : string := "✨ Keep Me Updated".

(** The [.then(data => ...)] callback, for a reply whose JSON body has
    the fields [success] and [message]. *)
Definition on_data (success : bool) (message : string) (f : form) : form :=
  let f := set_button button_label false f in
  if success then set_input EmptyString (showMessage message "success" f)
  else showMessage message "error" f.

(** The [.catch(error => ...)] callback. *)
Definition on_error (f : form) : form :=
  showMessage "Something went wrong. Please try again later." "error"
    (set_button button_label false f).

(** [emailInput.addEventListener('input', ...)]: the border colour. *)
Definition input_border (V : Imports) (value : string) : string :=
  let email := trim V value in
  if negb (String.eqb email EmptyString) && negb (Client.emailRegex_test email)
  then "#dc3545" else EmptyString.

(** The Express request a [fetch] of the page becomes: the body is
    [JSON.stringify({ email: email })]; the addresses and the user agent
    are the connection's. *)
Definition posted (email : string) (addr remote agent : option string)
  : request :=
  {| body_email := Js.Str email; ip := addr; remoteAddress := remote;
     get_User_Agent := agent |}.

(** The scroll throttle: the flag [ticking] and the callbacks queued with
    [requestAnimationFrame] that have not run yet. *)
Record throttle : Type := {
  ticking : bool;
  queued : nat
}.

(** [function requestTick()] *)
Definition requestTick (t : throttle) : throttle :=
  if negb (ticking t) then {| ticking := true; queued := S (queued t) |}
  else t.

(** What [function updateWatermark()] does to the flag. *)
Definition updateWatermark (t : throttle) : throttle :=
  {| ticking := false; queued := queued t |}.

Inductive happening : Type :=
| Scroll            (* a scroll event: the listener calls requestTick *)
| AnimationFrame.   (* the browser runs one queued callback, if any *)

Definition react (t : throttle) (h : happening) : throttle :=
  match h with
  | Scroll => requestTick t
  | AnimationFrame =>
      match queued t with
      | O => t
      | S n => updateWatermark {| ticking := ticking t; queued := n |}
      end
  end.

Definition loaded : throttle := {| ticking := false; queued := 0 |}.

End Page.

(** A form in which an address has been typed, with blanks around it. *)
Definition typed : Page.form :=
  {| Page.emailInput_value := "  ada@example.com ";
     Page.formMessage_textContent := EmptyString;
     Page.formMessage_className := "form-message";
     Page.notifyBtn_textContent := Page.button_label;
     Page.notifyBtn_disabled := false |}.

(* ================================================================== *)
(** ** Reading a run *)

(** The [INSERT] of a request was accepted. *)
Definition insert_accepted (ev : event) : bool :=
  match ev with
  | Ev q r =>
      match q, r with
      | InsertSubscriber _ _ _ _, inr _ => true
      | _, _ => false
      end
  end.

(** The reactivating [UPDATE] of a request was accepted. *)
Definition update_accepted (ev : event) : bool :=
  match ev with
  | Ev q r =>
      match q, r with
      | Reactivate _, inr _ => true
      | _, _ => false
      end
  end.

(** The error of the first statement the store rejected, if any. *)
Fixpoint thrown (tr : list event) : option exn :=
  match tr with
  | [] => None
  | Ev _ (inl e) :: _ => Some e
  | Ev _ (inr _) :: tr' => thrown tr'
  end.

(** What the [catch] block of the subscription route answers to [e]. *)
Definition caught_status (e : exn) : Z :=
  match error_code e with
  | Some c => if String.eqb c unique_violation then 409 else 500
  | None => 500
  end.

(** The response the [catch] block sends for [e]. *)
Definition caught_reply (e : exn) : response :=
  if caught_status e =? 409
  then json 409 false "This email is already subscribed."
  else json 500 false "Something went wrong. Please try again later.".

(** Everything the handler of the subscription route can answer. *)
Definition subscribe_replies : list response :=
  [ json 400 false "Email address is required.";
    json 400 false "Please enter a valid email address.";
    json 409 false "This email is already subscribed to our newsletter.";
    json 200 true "Welcome back! You've been resubscribed to our newsletter.";
    json 201 true "Thank you! You'll be notified when Auravia launches.";
    json 409 false "This email is already subscribed.";
    json 500 false "Something went wrong. Please try again later." ].

(** A store that cannot be reached: every statement is rejected with a
    connection failure. *)
Definition exec_unreachable (R : Type) (q : query R) (s : unit)
  : (exn + R) * unit :=
  (inl (PgError "08006"), s).

(** The two [UNIQUE] constraints alone. *)
Definition unique_keys (d : db) : Prop :=
  NoDup (map email (rows d)) /\ NoDup (map unsubscribe_token (rows d)).

(** The ids follow the sequence: increasing in insertion order, from 1
    and below the next value. *)
Definition ids_in_sequence (d : db) : Prop :=
  StronglySorted Z.lt (map id (rows d)) /\
  Forall (fun r => 1 <= id r < next_id d) (rows d).

(** What the subscription route writes besides the address: nothing is
    ever confirmed, and the user agent is never empty. *)
Definition as_written (r : subscriber) : Prop :=
  confirmed r = false /\ user_agent r <> EmptyString.

(** Not older than: the order of [ORDER BY subscribed_at DESC]. *)
Definition not_older (a b : subscriber) : Prop :=
  subscribed_at b <= subscribed_at a.

(** Export rows from the newest down. *)
Definition newest_first (l : list export_row) : Prop :=
  StronglySorted (fun a b => snd (fst (fst b)) <= snd (fst (fst a))) l.

(** The export row of a table row. *)
Definition exported (r : subscriber) : export_row :=
  (email r, subscribed_at r, is_active r, confirmed r).

(* ================================================================== *)
(** ** Lists of rows *)

Section ListFacts.

Context {A : Type}.

Lemma filter_none (f : A -> bool) (l : list A) :
  (forall x, In x l -> f x = false) -> filter f l = [].
Proof.
  induction l as [|a l IH]; intros H; simpl; [reflexivity|].
  rewrite (H a (or_introl eq_refl)). apply IH.
  intros x Hx. apply H. now right.
Qed.

Lemma map_fixed (f : A -> A) (l : list A) :
  (forall x, In x l -> f x = x) -> map f l = l.
Proof.
  induction l as [|a l IH]; intros H; simpl; [reflexivity|].
  rewrite (H a (or_introl eq_refl)). f_equal. apply IH.
  intros x Hx. apply H. now right.
Qed.

Lemma existsb_none (f : A -> bool) (l : list A) :
  (forall x, In x l -> f x = false) -> existsb f l = false.
Proof.
  induction l as [|a l IH]; intros H; simpl; [reflexivity|].
  rewrite (H a (or_introl eq_refl)). apply IH.
  intros x Hx. apply H. now right.
Qed.

End ListFacts.

(** With a unique key, the row holding a key value splits the table into
    rows that hold other values. *)
Lemma unique_split {K : Type} (key : subscriber -> K) (t : list subscriber)
    (r : subscriber) :
  NoDup (map key t) -> In r t ->
  exists t1 t2, t = t1 ++ r :: t2 /\
    (forall x, In x (t1 ++ t2) -> key x <> key r).
Proof.
  intros Hnd Hin.
  destruct (in_split r t Hin) as (t1 & t2 & ->).
  exists t1, t2. split; [reflexivity|].
  intros x Hx Heq.
  rewrite map_app in Hnd. simpl in Hnd.
  apply NoDup_remove_2 in Hnd. apply Hnd.
  rewrite <- Heq, <- map_app. now apply in_map.
Qed.

Lemma eqb_other (a b : string) : a <> b -> String.eqb a b = false.
Proof. intros H. now apply String.eqb_neq. Qed.

Section TableFacts.

Variable env : db_env.

Lemma select_by_email_unique (t1 t2 : list subscriber) (r : subscriber) :
  (forall x, In x (t1 ++ t2) -> email x <> email r) ->
  select_by_email (email r) (t1 ++ r :: t2) = [(id r, is_active r)].
Proof.
  intros H. unfold select_by_email.
  rewrite filter_app. simpl. rewrite String.eqb_refl.
  rewrite !filter_none; [reflexivity| |];
    intros x Hx; apply eqb_other, H, in_or_app; auto.
Qed.

Lemma select_by_email_none (e : string) (t : list subscriber) :
  (forall x, In x t -> email x <> e) -> select_by_email e t = [].
Proof.
  intros H. unfold select_by_email.
  rewrite filter_none; [reflexivity|].
  intros x Hx. now apply eqb_other, H.
Qed.

Lemma reactivate_unique (t1 t2 : list subscriber) (r : subscriber) :
  (forall x, In x (t1 ++ t2) -> email x <> email r) ->
  reactivate env (email r) (t1 ++ r :: t2) = t1 ++ reactivated env r :: t2.
Proof.
  intros H. unfold reactivate.
  rewrite map_app. simpl. rewrite String.eqb_refl.
  rewrite !map_fixed; [reflexivity| |];
    intros x Hx; rewrite eqb_other; auto; apply H, in_or_app; auto.
Qed.

Lemma deactivate_none (tok : string) (t : list subscriber) :
  (forall x, In x t -> unsubscribe_token x <> tok) ->
  deactivate tok t = t /\ deactivate_returning tok t = [].
Proof.
  intros H. unfold deactivate, deactivate_returning. split.
  - apply map_fixed. intros x Hx. rewrite eqb_other; auto.
  - rewrite filter_none; [reflexivity|].
    intros x Hx. now apply eqb_other, H.
Qed.

(** The [INSERT] goes through when the address is one [inet] reads, the
    sequence has a value left, the email is new and so is the token. *)
Lemma insert_goes_through (e : string) (ip : option string)
    (ua ctok : string) (d : db) :
  inet_ok env ip = true ->
  next_id d <= serial_max ->
  (forall x, In x (rows d) -> email x <> e) ->
  (forall x, In x (rows d) -> unsubscribe_token x <> gen_random_uuid env) ->
  exec_query env nat (InsertSubscriber e ip ua ctok) d
  = (inr 1%nat,
     {| rows := rows d ++ [new_row env (next_id d) e ip ua ctok];
        next_id := next_id d + 1 |}).
Proof.
  intros Hip Hseq Hnew Hfresh. simpl. rewrite Hip. simpl.
  destruct (Z.ltb_spec serial_max (next_id d)); [lia|].
  unfold conflicts. rewrite existsb_none; [reflexivity|].
  intros x Hx. simpl.
  now rewrite (eqb_other _ _ (Hnew x Hx)), (eqb_other _ _ (Hfresh x Hx)).
Qed.

End TableFacts.

(* ================================================================== *)
(** ** POST /api/subscribe *)

Section Subscribe.

Variable V : Imports.
Variable env : db_env.

Lemma sanitizeEmail_string (s : string) :
  sanitizeEmail V (Js.Str s) = inr (normalized V s).
Proof. reflexivity. Qed.

(** A request that passes the checks looks the address up first. *)
Ltac past_validation Hb Ht Hval :=
  unfold normalized in *;
  unfold serve, handler, subscribe, subscribe_try;
  rewrite Hb, Ht; simpl; rewrite Hval; simpl.

(** The reactivation branch, in full: the matched row is replaced in
    place by its reactivated version. *)
Lemma subscribe_reactivation (req : request) (ctok s : string) (d : db)
    (r : subscriber) :
  well_formed V d ->
  body_email req = Js.Str s ->
  Js.truthy (Js.Str s) = true ->
  In r (rows d) ->
  email r = normalized V s ->
  is_active r = false ->
  exists t1 t2,
    rows d = t1 ++ r :: t2 /\
    (forall x, In x (t1 ++ t2) -> email x <> email r) /\
    serve V env (PostSubscribe req ctok) d
    = (inr (json 200 true
              "Welcome back! You've been resubscribed to our newsletter."),
       {| rows := t1 ++ reactivated env r :: t2; next_id := next_id d |}).
Proof.
  intros [Hu _ Hv] Hb Ht Hin He Ha.
  assert (Hval : validateEmail V (normalized V s) = true).
  { rewrite <- He. rewrite Forall_forall in Hv. now apply Hv. }
  destruct (unique_split email _ _ Hu Hin) as (t1 & t2 & Hsplit & Hother).
  exists t1, t2. split; [assumption|]. split; [assumption|].
  past_validation Hb Ht Hval.
  rewrite <- He, Hsplit, select_by_email_unique by assumption.
  simpl. rewrite Ha. simpl.
  now rewrite Hsplit, reactivate_unique by assumption.
Qed.

(** C1. When the table (with its unique addresses, all of them accepted
    by the validation) holds an inactive row whose address is the
    normalised request email, [POST /api/subscribe] answers 200 with
    the welcome-back message; that row, in place, becomes active with
    [subscribed_at] set to the current timestamp, and the table still
    has exactly one row for the address and as many rows as before. *)
Theorem subscribe_inactive_welcomes_back (req : request) (ctok s : string)
    (d : db) (r : subscriber) :
  well_formed V d ->
  body_email req = Js.Str s ->
  Js.truthy (Js.Str s) = true ->
  In r (rows d) ->
  email r = normalized V s ->
  is_active r = false ->
  exists d' t1 t2 r',
    serve V env (PostSubscribe req ctok) d
    = (inr (json 200 true
              "Welcome back! You've been resubscribed to our newsletter."),
       d') /\
    rows d = t1 ++ r :: t2 /\
    rows d' = t1 ++ r' :: t2 /\
    id r' = id r /\ email r' = email r /\
    is_active r' = true /\
    subscribed_at r' = current_timestamp env /\
    List.length (filter (fun x => String.eqb (email x) (normalized V s))
                        (rows d')) = 1%nat /\
    List.length (rows d') = List.length (rows d).
Proof.
  intros Hwf Hb Ht Hin He Ha.
  destruct (subscribe_reactivation req ctok s d r Hwf Hb Ht Hin He Ha)
    as (t1 & t2 & Hsplit & Hother & Hserve).
  exists {| rows := t1 ++ reactivated env r :: t2; next_id := next_id d |},
    t1, t2, (reactivated env r).
  repeat split; try assumption.
  - simpl. rewrite <- He, filter_app. simpl. rewrite String.eqb_refl.
    rewrite !filter_none; [reflexivity| |];
      intros x Hx; apply eqb_other, Hother, in_or_app; auto.
  - simpl. rewrite Hsplit, !length_app. reflexivity.
Qed.

(** C10. On the reactivation branch the matched row keeps its id,
    email, ip_address, user_agent, confirmed, confirmation_token and
    unsubscribe_token; the rows before and after it, and the id
    sequence, are what they were. *)
Theorem subscribe_reactivation_frame (req : request) (ctok s : string)
    (d : db) (r : subscriber) :
  well_formed V d ->
  body_email req = Js.Str s ->
  Js.truthy (Js.Str s) = true ->
  In r (rows d) ->
  email r = normalized V s ->
  is_active r = false ->
  exists o d' t1 t2 r',
    serve V env (PostSubscribe req ctok) d = (o, d') /\
    rows d = t1 ++ r :: t2 /\
    rows d' = t1 ++ r' :: t2 /\
    next_id d' = next_id d /\
    id r' = id r /\
    email r' = email r /\
    ip_address r' = ip_address r /\
    user_agent r' = user_agent r /\
    confirmed r' = confirmed r /\
    confirmation_token r' = confirmation_token r /\
    unsubscribe_token r' = unsubscribe_token r.
Proof.
  intros Hwf Hb Ht Hin He Ha.
  destruct (subscribe_reactivation req ctok s d r Hwf Hb Ht Hin He Ha)
    as (t1 & t2 & Hsplit & _ & Hserve).
  eexists _, _, t1, t2, (reactivated env r).
  split; [exact Hserve|]. repeat split. assumption.
Qed.

(** C3. When the table holds an active row whose address is the
    normalised request email, [POST /api/subscribe] answers 409 and the
    table (rows and id sequence) is exactly what it was. *)
Theorem subscribe_active_conflict (req : request) (ctok s : string)
    (d : db) (r : subscriber) :
  well_formed V d ->
  body_email req = Js.Str s ->
  Js.truthy (Js.Str s) = true ->
  In r (rows d) ->
  email r = normalized V s ->
  is_active r = true ->
  serve V env (PostSubscribe req ctok) d
  = (inr (json 409 false
            "This email is already subscribed to our newsletter."), d).
Proof.
  intros [Hu _ Hv] Hb Ht Hin He Ha.
  assert (Hval : validateEmail V (normalized V s) = true).
  { rewrite <- He. rewrite Forall_forall in Hv. now apply Hv. }
  destruct (unique_split email _ _ Hu Hin) as (t1 & t2 & Hsplit & Hother).
  past_validation Hb Ht Hval.
  rewrite <- He, Hsplit, select_by_email_unique by assumption.
  simpl. now rewrite Ha.
Qed.


End Subscribe.

(** *** Against any store *)

Section SubscribeAnyStore.

Variable V : Imports.
Context {S : Type} (exec : forall R : Type, query R -> S -> (exn + R) * S).

(** A run whose trace holds no rejected INSERT. *)
Ltac no_conflict :=
  let H := fresh in
  intros H; inversion H; subst; simpl; discriminate.

(** C5. A request whose email is missing (falsy), or is a string whose
    normalised form is not accepted by [isEmail] or is longer than 255
    characters, gets 400; no statement is sent to the store, which is
    left as it was. *)
Theorem subscribe_rejects_bad_email (req : request) (ctok : string) (st : S) :
  Js.truthy (body_email req) = false \/
  (exists s, body_email req = Js.Str s /\
     (isEmail V (normalized V s) = false \/
      (255 < Js.length (normalized V s))%nat)) ->
  exists m,
    run exec (subscribe V req ctok) st = (inr (json 400 false m), st, []).
Proof.
  intros [Hmissing | (s & Hb & Hbad)];
    unfold subscribe, subscribe_try.
  - rewrite Hmissing. simpl. eauto.
  - rewrite Hb. destruct (Js.truthy (Js.Str s)); simpl; [|eauto].
    assert (Hval : validateEmail V (normalized V s) = false).
    { unfold validateEmail. destruct Hbad as [-> | Hlen]; [reflexivity|].
      apply andb_false_iff. right. apply Nat.leb_gt. exact Hlen. }
    unfold normalized in Hval. rewrite Hval. simpl. eauto.
Qed.

(** C4. Whatever the store and whatever happened on it in between: if
    the [INSERT] of a subscription was rejected with a unique violation,
    the response is 409. *)
Theorem subscribe_insert_conflict_409 (req : request) (ctok : string)
    (st st' : S) (o : exn + response) (tr : list event) :
  run exec (subscribe V req ctok) st = (o, st', tr) ->
  existsb insert_conflicted tr = true ->
  o = inr (json 409 false "This email is already subscribed.").
Proof.
  unfold subscribe, subscribe_try, subscribe_catch.
  destruct (Js.truthy (body_email req)); simpl;
    [|no_conflict].
  destruct (sanitizeEmail V (body_email req)) as [e|a]; simpl.
  { destruct e as [|c]; simpl; [|destruct (String.eqb c unique_violation)];
      simpl; no_conflict. }
  destruct (validateEmail V a); simpl;
    [|no_conflict].
  destruct (exec _ (SelectByEmail a) st) as [[e|found] st1]; simpl.
  { destruct e as [|c]; simpl; [|destruct (String.eqb c unique_violation)];
      simpl; no_conflict. }
  destruct found as [|[i active] rest]; simpl.
  - destruct (exec _ (InsertSubscriber _ _ _ _) st1) as [[e|n] st2]; simpl.
    + destruct e as [|c]; simpl.
      * no_conflict.
      * destruct (String.eqb c unique_violation) eqn:Hc; simpl;
          intros H; inversion H; subst; simpl; [reflexivity|].
        rewrite Hc. discriminate.
    + no_conflict.
  - destruct active; simpl; [no_conflict|].
    destruct (exec _ (Reactivate a) st1) as [[e|n] st2]; simpl.
    + destruct e as [|c]; simpl; [|destruct (String.eqb c unique_violation)];
        simpl; no_conflict.
    + no_conflict.
Qed.

(** The subscription handler never lets an error escape. *)
Lemma subscribe_responds (req : request) (ctok : string) (st : S) :
  exists resp, fst (fst (run exec (subscribe V req ctok) st)) = inr resp.
Proof.
  unfold subscribe, subscribe_try, subscribe_catch.
  destruct (Js.truthy (body_email req)); simpl; [|eauto].
  destruct (sanitizeEmail V (body_email req)) as [e|a]; simpl.
  { destruct e as [|c]; simpl; [|destruct (String.eqb c unique_violation)];
      simpl; eauto. }
  destruct (validateEmail V a); simpl; [|eauto].
  destruct (exec _ (SelectByEmail a) st) as [[e|found] st1]; simpl.
  { destruct e as [|c]; simpl; [|destruct (String.eqb c unique_violation)];
      simpl; eauto. }
  destruct found as [|[i active] rest]; simpl.
  - destruct (exec _ (InsertSubscriber _ _ _ _) st1) as [[e|n] st2]; simpl;
      [|eauto].
    destruct e as [|c]; simpl; [|destruct (String.eqb c unique_violation)];
      simpl; eauto.
  - destruct active; simpl; [eauto|].
    destruct (exec _ (Reactivate a) st1) as [[e|n] st2]; simpl; [|eauto].
    destruct e as [|c]; simpl; [|destruct (String.eqb c unique_violation)];
      simpl; eauto.
Qed.

End SubscribeAnyStore.

(* ================================================================== *)
(** ** GET /api/unsubscribe/:token *)

Section Unsubscribe.

Variable V : Imports.

Lemma db_eta (d : db) : {| rows := rows d; next_id := next_id d |} = d.
Proof. now destruct d. Qed.

(** C7. A token that no row holds gets 404 with the invalid-link page,
    and the table is exactly what it was. *)
Theorem unsubscribe_unknown_token (env : db_env) (token : string) (d : db) :
  (forall x, In x (rows d) -> unsubscribe_token x <> token) ->
  serve V env (GetUnsubscribe token) d
  = (inr {| status := 404; sent := invalid_link_page |}, d).
Proof.
  intros H. destruct (deactivate_none token (rows d) H) as [Hsame Hnone].
  unfold serve, handler, unsubscribe. simpl.
  rewrite Hnone, Hsame, db_eta. reflexivity.
Qed.

Lemma deactivate_again (tok : string) (t : list subscriber) :
  deactivate tok (deactivate tok t) = deactivate tok t.
Proof.
  unfold deactivate. rewrite map_map. apply map_ext. intros r.
  destruct (String.eqb (unsubscribe_token r) tok) eqn:E; simpl; rewrite E;
    reflexivity.
Qed.

Lemma deactivate_returning_again (tok : string) (t : list subscriber) :
  deactivate_returning tok (deactivate tok t) = deactivate_returning tok t.
Proof.
  unfold deactivate_returning, deactivate.
  induction t as [|r t IH]; simpl; [reflexivity|].
  destruct (String.eqb (unsubscribe_token r) tok) eqn:E; simpl; rewrite E;
    simpl; now rewrite IH.
Qed.

Lemma deactivate_returning_found (tok : string) (t : list subscriber)
    (r : subscriber) :
  In r t -> unsubscribe_token r = tok ->
  exists e es, deactivate_returning tok t = e :: es.
Proof.
  unfold deactivate_returning. intros Hin Htok.
  assert (Hf : In r (filter (fun x => String.eqb (unsubscribe_token x) tok) t)).
  { apply filter_In. split; [assumption|]. rewrite Htok. apply String.eqb_refl. }
  destruct (filter _ t) as [|x l]; [contradiction|]. simpl. eauto.
Qed.

(** What the route does with a token some row holds: every row holding
    it is made inactive and the success page is sent. *)
Lemma unsubscribe_known_token (env : db_env) (token : string) (d : db)
    (r : subscriber) :
  In r (rows d) -> unsubscribe_token r = token ->
  serve V env (GetUnsubscribe token) d
  = (inr {| status := 200; sent := unsubscribed_page |},
     {| rows := deactivate token (rows d); next_id := next_id d |}).
Proof.
  intros Hin Htok.
  destruct (deactivate_returning_found token _ r Hin Htok) as (e & es & He).
  unfold serve, handler, unsubscribe. simpl. rewrite He. reflexivity.
Qed.

(** C6 (the behaviour of the code). After an unsubscription through
    [token] the row is inactive and still holds the token; a second
    request with the same token matches it again (the [UPDATE] has no
    condition on [is_active]): it is answered 200 with the success
    page, not 404, and the table stays as the first request left it. *)
Theorem unsubscribe_second_visit_succeeds (env env' : db_env)
    (token : string) (d : db) (r : subscriber) :
  In r (rows d) -> unsubscribe_token r = token ->
  exists d1,
    serve V env (GetUnsubscribe token) d
    = (inr {| status := 200; sent := unsubscribed_page |}, d1) /\
    In (deactivated r) (rows d1) /\
    is_active (deactivated r) = false /\
    unsubscribe_token (deactivated r) = token /\
    serve V env' (GetUnsubscribe token) d1
    = (inr {| status := 200; sent := unsubscribed_page |}, d1).
Proof.
  intros Hin Htok.
  assert (Hin1 : In (deactivated r) (deactivate token (rows d))).
  { unfold deactivate. apply in_map_iff. exists r. split; [|assumption].
    rewrite Htok, String.eqb_refl. reflexivity. }
  eexists. split; [apply (unsubscribe_known_token env token d r Hin Htok)|].
  simpl. repeat split; try assumption.
  rewrite (unsubscribe_known_token env' token _ (deactivated r)); simpl;
    try assumption.
  now rewrite deactivate_again.
Qed.

End Unsubscribe.

(* ================================================================== *)
(** ** GET /api/stats *)

Section Stats.

Variable V : Imports.
Variable env : db_env.

Lemma count_cons (p : subscriber -> bool) (r : subscriber)
    (t : list subscriber) :
  count p (r :: t) = count_if (p r) 0 + count p t.
Proof.
  unfold count, count_if. cbn [filter].
  destruct (p r); cbn [List.length]; lia.
Qed.

Lemma count_if_shift (b : bool) (c : Z) : count_if b c = count_if b 0 + c.
Proof. unfold count_if. destruct b; lia. Qed.

(** The single pass adds, to each counter, the number of rows in its
    class. *)
Lemma fold_stats (t : list subscriber) (acc : stats_row) :
  let st := fold_left (stats_add env) t acc in
  total_subscribers st = total_subscribers acc + Z.of_nat (List.length t) /\
  active_subscribers st
  = active_subscribers acc + count (fun r => Bool.eqb (is_active r) true) t /\
  confirmed_subscribers st
  = confirmed_subscribers acc + count (fun r => Bool.eqb (confirmed r) true) t /\
  today_signups st
  = today_signups acc + count (fun r => current_date env <=? subscribed_at r) t /\
  week_signups st
  = week_signups acc + count (fun r => days_ago env 7 <=? subscribed_at r) t /\
  month_signups st
  = month_signups acc + count (fun r => days_ago env 30 <=? subscribed_at r) t.
Proof.
  revert acc. induction t as [|r t IH]; intros acc; simpl.
  - unfold count. cbn [filter List.length]. repeat split; lia.
  - destruct (IH (stats_add env acc r)) as (H1 & H2 & H3 & H4 & H5 & H6).
    rewrite H1, H2, H3, H4, H5, H6. rewrite !count_cons. simpl.
    rewrite (count_if_shift _ (active_subscribers acc)),
            (count_if_shift _ (confirmed_subscribers acc)),
            (count_if_shift _ (today_signups acc)),
            (count_if_shift _ (week_signups acc)),
            (count_if_shift _ (month_signups acc)).
    repeat split; lia.
Qed.

(** A timestamp is at or after the beginning of a local day exactly
    when it falls on that day or a later one. *)
Lemma on_or_after (z : zone) (D t : Z) :
  (start_of z D <=? t) = (D <=? day_of z t).
Proof.
  pose proof (zone_law z D t) as H.
  destruct (Z.leb_spec (start_of z D) t), (Z.leb_spec D (day_of z t));
    try reflexivity; exfalso; lia.
Qed.

(** [CURRENT_DATE] is not in the future: today has begun. *)
Lemma current_date_has_begun : current_date env <= current_timestamp env.
Proof. unfold current_date. apply zone_law. lia. Qed.

(** C8. On every table, [GET /api/stats] answers 200 with the number of
    rows, of active rows, of confirmed rows, and of rows whose
    [subscribed_at] falls, in the session time zone, on the calendar day
    of the current instant or later, on the day 7 calendar days before
    it or later, and on the day 30 calendar days before it or later; the
    table is unchanged. *)
Theorem stats_counts (d : db) :
  exists st,
    serve V env GetStats d
    = (inr {| status := 200; sent := JsonStats true st |}, d) /\
    total_subscribers st = Z.of_nat (List.length (rows d)) /\
    active_subscribers st = count (fun r => is_active r) (rows d) /\
    confirmed_subscribers st = count (fun r => confirmed r) (rows d) /\
    today_signups st
    = count (fun r => day_of (time_zone env) (current_timestamp env)
                      <=? day_of (time_zone env) (subscribed_at r)) (rows d) /\
    week_signups st
    = count (fun r => day_of (time_zone env) (current_timestamp env) - 7
                      <=? day_of (time_zone env) (subscribed_at r)) (rows d) /\
    month_signups st
    = count (fun r => day_of (time_zone env) (current_timestamp env) - 30
                      <=? day_of (time_zone env) (subscribed_at r)) (rows d).
Proof.
  exists (select_stats env (rows d)). split; [reflexivity|].
  destruct (fold_stats (rows d) (stats_zero)) as (H1 & H2 & H3 & H4 & H5 & H6).
  unfold select_stats. rewrite H1, H2, H3, H4, H5, H6. simpl.
  assert (Hb : forall f : subscriber -> bool,
             count (fun r => Bool.eqb (f r) true) (rows d) = count f (rows d)).
  { intros f. unfold count. do 2 f_equal. apply filter_ext.
    intros r. now destruct (f r). }
  assert (Hz : forall n,
             count (fun r => days_ago env n <=? subscribed_at r) (rows d)
             = count (fun r => day_of (time_zone env) (current_timestamp env) - n
                               <=? day_of (time_zone env) (subscribed_at r))
                 (rows d)).
  { intros n. unfold count. do 2 f_equal. apply filter_ext.
    intros r. unfold days_ago. apply on_or_after. }
  assert (H0 : count (fun r => current_date env <=? subscribed_at r) (rows d)
               = count (fun r => day_of (time_zone env) (current_timestamp env)
                                 <=? day_of (time_zone env) (subscribed_at r))
                   (rows d)).
  { unfold count. do 2 f_equal. apply filter_ext.
    intros r. unfold current_date. apply on_or_after. }
  rewrite !Hb, !Hz, H0. repeat split.
Qed.

End Stats.

(* ================================================================== *)
(** ** Rows are never deleted, keys never change *)

Section Preservation.

Lemma same_key_refl (r : subscriber) : same_key r r.
Proof. now repeat split. Qed.

Lemma same_key_trans (a b c : subscriber) :
  same_key a b -> same_key b c -> same_key a c.
Proof.
  intros (H1 & H2 & H3) (H4 & H5 & H6).
  repeat split; congruence.
Qed.

Lemma Forall2_same_key_map (f : subscriber -> subscriber)
    (t : list subscriber) :
  (forall r, same_key r (f r)) -> Forall2 same_key t (map f t).
Proof.
  intros H. induction t as [|r t IH]; simpl; constructor; auto.
Qed.

Lemma Forall2_same_key_trans (a b c : list subscriber) :
  Forall2 same_key a b -> Forall2 same_key b c -> Forall2 same_key a c.
Proof.
  intros Hab. revert c.
  induction Hab as [|x y a b Hxy Hab IH]; intros c Hbc.
  - inversion Hbc. constructor.
  - inversion Hbc as [|y' z b' c' Hyz Hbc']; subst.
    constructor; [eapply same_key_trans; eauto | auto].
Qed.

Lemma Forall2_same_key_refl (t : list subscriber) : Forall2 same_key t t.
Proof.
  induction t; constructor; auto using same_key_refl.
Qed.

Lemma preserved_refl (t : list subscriber) : preserved t t.
Proof.
  exists t, []. split; [now rewrite app_nil_r|].
  apply Forall2_same_key_refl.
Qed.

Lemma preserved_trans (a b c : list subscriber) :
  preserved a b -> preserved b c -> preserved a c.
Proof.
  intros (k1 & n1 & -> & H1) (k2 & n2 & -> & H2).
  apply Forall2_app_inv_l in H2 as (k & n & Hk & Hn & ->).
  exists k, (n ++ n2). split; [now rewrite app_assoc|].
  eapply Forall2_same_key_trans; eauto.
Qed.

Lemma preserved_map (f : subscriber -> subscriber) (t : list subscriber) :
  (forall r, same_key r (f r)) -> preserved t (map f t).
Proof.
  intros H. exists (map f t), []. split; [now rewrite app_nil_r|].
  now apply Forall2_same_key_map.
Qed.

Lemma preserved_app (t added : list subscriber) : preserved t (t ++ added).
Proof.
  exists t, added. split; [reflexivity|].
  apply Forall2_same_key_refl.
Qed.

(** Every statement the server can send keeps all rows and their keys. *)
Lemma exec_query_preserved (env : db_env) (R : Type) (q : query R) (d : db) :
  preserved (rows d) (rows (snd (exec_query env R q d))).
Proof.
  destruct q; simpl; try apply preserved_refl.
  - apply preserved_map. intros r.
    destruct (String.eqb (email r) e); now repeat split.
  - destruct (inet_ok env _); simpl; [|apply preserved_refl].
    destruct (serial_max <? next_id d); simpl; [apply preserved_refl|].
    destruct (conflicts _ _); simpl;
      [apply preserved_refl | apply preserved_app].
  - apply preserved_map. intros r.
    destruct (String.eqb (unsubscribe_token r) tok); now repeat split.
Qed.

(** Hence so does every program that talks to the table. *)
Lemma run_preserved (env : db_env) {A : Type} (p : prog A) (d : db) :
  preserved (rows d) (rows (snd (fst (run (exec_query env) p d)))).
Proof.
  revert d. induction p as [a|e|R q k IH]; intros d; simpl;
    try apply preserved_refl.
  pose proof (exec_query_preserved env R q d) as Hq.
  destruct (exec_query env R q d) as [r d1]. simpl in Hq.
  specialize (IH r d1).
  destruct (run (exec_query env) (k r) d1) as [[o d2] tr]. simpl in *.
  eapply preserved_trans; eauto.
Qed.

(** The same on a table shared with other requests, whatever statements
    they run in between. *)
Lemma exec_stmts_preserved (l : list stmt) (d : db) :
  preserved (rows d) (rows (fold_left exec_stmt l d)).
Proof.
  revert d. induction l as [|[env R q] l IH]; intros d; simpl.
  - apply preserved_refl.
  - eapply preserved_trans; [apply (exec_query_preserved env R q d) | apply IH].
Qed.

Lemma exec_shared_preserved (env : db_env) (R : Type) (q : query R)
    (s : shared) :
  preserved (rows (table s)) (rows (table (snd (exec_shared env R q s)))).
Proof.
  unfold exec_shared.
  pose proof (exec_stmts_preserved (hd [] (meanwhile s)) (table s)) as H1.
  pose proof (exec_query_preserved env R q
                (fold_left exec_stmt (hd [] (meanwhile s)) (table s))) as H2.
  destruct (exec_query env R q _) as [r d2]. simpl in *.
  eapply preserved_trans; eauto.
Qed.

Lemma run_shared_preserved (env : db_env) {A : Type} (p : prog A)
    (s : shared) :
  preserved (rows (table s))
            (rows (table (snd (fst (run (exec_shared env) p s))))).
Proof.
  revert s. induction p as [a|e|R q k IH]; intros s; simpl;
    try apply preserved_refl.
  pose proof (exec_shared_preserved env R q s) as Hq.
  destruct (exec_shared env R q s) as [r s1]. simpl in Hq.
  specialize (IH r s1).
  destruct (run (exec_shared env) (k r) s1) as [[o s2] tr]. simpl in *.
  eapply preserved_trans; eauto.
Qed.

Variable V : Imports.

(** Every handler answers: no error escapes its [try] block. *)
Lemma serve_responds (env : db_env) (op : operation) (d : db) :
  exists resp, fst (serve V env op d) = inr resp.
Proof.
  unfold serve. destruct op as [req ctok|token| | |now]; simpl.
  - destruct (subscribe_responds V (exec_query env) req ctok d) as [resp H].
    exists resp. exact H.
  - destruct (deactivate_returning token (rows d)); simpl; eauto.
  - eauto.
  - eauto.
  - eauto.
Qed.

Lemma serve_run (env : db_env) (op : operation) (d : db) :
  snd (serve V env op d)
  = snd (fst (run (exec_query env) (handler V op) d)).
Proof.
  unfold serve.
  now destruct (run (exec_query env) (handler V op) d) as [[o d'] tr].
Qed.

(** C9. Whatever requests are served, in whatever order and at whatever
    moments, every row of the table is still there afterwards, in its
    place, with the id, email and unsubscribe token it had; rows are
    only ever added after the existing ones. *)
Theorem operations_keep_rows_and_keys (l : list (db_env * operation))
    (d : db) :
  preserved (rows d) (rows (serve_all V l d)).
Proof.
  revert d. induction l as [|[env op] l IH]; intros d; simpl.
  - apply preserved_refl.
  - eapply preserved_trans; [|apply IH].
    rewrite serve_run. apply run_preserved.
Qed.

(** What [preserved] gives for one row. *)
Lemma preserved_row (t t' : list subscriber) (r : subscriber) :
  preserved t t' -> In r t ->
  exists r', In r' t' /\ same_key r r'.
Proof.
  intros (k & n & -> & H) Hin.
  induction H as [|x y a b Hxy Hab IH]; [contradiction|].
  destruct Hin as [-> | Hin].
  - exists y. split; [now left | assumption].
  - destruct (IH Hin) as (r' & Hr' & Hk).
    exists r'. split; [now right | assumption].
Qed.

Lemma preserved_length (t t' : list subscriber) :
  preserved t t' -> (List.length t <= List.length t')%nat.
Proof.
  intros (k & n & -> & H). apply Forall2_length in H.
  rewrite length_app. lia.
Qed.

End Preservation.

(* ================================================================== *)
(** ** The table stays well formed *)

Section WellFormed.

Variable V : Imports.

Lemma empty_well_formed : well_formed V empty_db.
Proof. split; simpl; constructor. Qed.

(** An update that leaves keys alone leaves the invariants alone. *)
Lemma well_formed_map (f : subscriber -> subscriber) (d : db) (n : Z) :
  (forall r, same_key r (f r)) ->
  well_formed V d ->
  well_formed V {| rows := map f (rows d); next_id := n |}.
Proof.
  intros Hf [Hu Ht Hv].
  assert (He : map email (map f (rows d)) = map email (rows d)).
  { rewrite map_map. apply map_ext. intros r. symmetry. apply Hf. }
  assert (Hk : map unsubscribe_token (map f (rows d))
               = map unsubscribe_token (rows d)).
  { rewrite map_map. apply map_ext. intros r. symmetry. apply Hf. }
  split; simpl.
  - now rewrite He.
  - now rewrite Hk.
  - rewrite Forall_forall in *. intros x Hx.
    apply in_map_iff in Hx as (r & <- & Hr).
    destruct (Hf r) as (_ & <- & _). now apply Hv.
Qed.

Lemma conflicts_false (n : subscriber) (t : list subscriber) :
  conflicts n t = false ->
  ~ In (email n) (map email t) /\
  ~ In (unsubscribe_token n) (map unsubscribe_token t).
Proof.
  unfold conflicts. intros H.
  assert (Hall : forall x, In x t ->
            email x <> email n /\ unsubscribe_token x <> unsubscribe_token n).
  { intros x Hx.
    destruct (String.eqb (email x) (email n)) eqn:E1;
      destruct (String.eqb (unsubscribe_token x) (unsubscribe_token n)) eqn:E2;
      try (exfalso;
           assert (Ht : existsb (fun r => String.eqb (email r) (email n)
                      || String.eqb (unsubscribe_token r) (unsubscribe_token n)) t
                      = true)
             by (apply existsb_exists; exists x; rewrite E1, E2; auto);
           congruence).
    split; now apply String.eqb_neq. }
  split; intros Hin; apply in_map_iff in Hin as (x & Heq & Hx);
    destruct (Hall x Hx); congruence.
Qed.

Lemma NoDup_snoc {K : Type} (l : list K) (a : K) :
  NoDup l -> ~ In a l -> NoDup (l ++ [a]).
Proof.
  intros Hl Ha. apply NoDup_app; [assumption | |].
  - constructor; [intros [] | constructor].
  - intros x Hx [<- | []]. contradiction.
Qed.

(** An accepted insertion keeps the invariants when the address it
    stores passed the validation. *)
Lemma well_formed_insert (d : db) (n : subscriber) (i : Z) :
  well_formed V d ->
  conflicts n (rows d) = false ->
  validateEmail V (email n) = true ->
  well_formed V {| rows := rows d ++ [n]; next_id := i |}.
Proof.
  intros [Hu Ht Hv] Hc Hval.
  destruct (conflicts_false _ _ Hc) as [He Hk].
  split; simpl.
  - rewrite map_app. simpl. now apply NoDup_snoc.
  - rewrite map_app. simpl. now apply NoDup_snoc.
  - apply Forall_app. split; [assumption | now repeat constructor].
Qed.

Lemma well_formed_next_id (d : db) (i : Z) :
  well_formed V d -> well_formed V {| rows := rows d; next_id := i |}.
Proof. intros [Hu Ht Hv]. now split. Qed.

(** Every operation keeps the table well formed. *)
Theorem serve_well_formed (env : db_env) (op : operation) (d : db) :
  well_formed V d -> well_formed V (snd (serve V env op d)).
Proof.
  intros Hwf. destruct op as [req ctok|token| | |now]; unfold serve; simpl;
    try assumption.
  - unfold subscribe, subscribe_try, subscribe_catch.
    destruct (Js.truthy (body_email req)); simpl; [|assumption].
    destruct (sanitizeEmail V (body_email req)) as [e|a]; simpl.
    { destruct e as [|c]; simpl; [|destruct (String.eqb c unique_violation)];
        assumption. }
    destruct (validateEmail V a) eqn:Hval; simpl; [|assumption].
    destruct (select_by_email a (rows d)) as [|[i active] rest]; simpl.
    + destruct (inet_ok env _); simpl; [|assumption].
      destruct (serial_max <? next_id d); simpl; [assumption|].
      destruct (conflicts _ (rows d)) eqn:Hc; simpl.
      * now apply well_formed_next_id.
      * now apply well_formed_insert.
    + destruct active; simpl; [assumption|].
      apply well_formed_map; [|assumption]. intros r.
      destruct (String.eqb (email r) a); now repeat split.
  - destruct (deactivate_returning token (rows d)); simpl;
      (apply well_formed_map; [|assumption]); intros r;
      destruct (String.eqb (unsubscribe_token r) token); now repeat split.
Qed.

Theorem reachable_well_formed (d : db) : reachable V d -> well_formed V d.
Proof.
  induction 1; [apply empty_well_formed | now apply serve_well_formed].
Qed.

End WellFormed.

(* ================================================================== *)
(** ** The handlers on concrete requests *)

Section Runs.

Import Sample.

Lemma two_well_formed : well_formed validator two.
Proof.
  split; simpl.
  - repeat constructor; simpl; intuition discriminate.
  - repeat constructor; simpl; intuition discriminate.
  - repeat constructor.
Qed.

Example served_in_sequence :
  rows (serve_all validator
          [(noon, PostSubscribe (post "a@b.com") "feed");
           (later, PostSubscribe (post "c@d.org") "beef");
           (later, GetUnsubscribe (gen_random_uuid later))] empty_db)
  = [ new_row noon 1 "a@b.com" (Some "203.0.113.7") "curl/8.0" "feed";
      deactivated
        (new_row later 2 "c@d.org" (Some "203.0.113.7") "curl/8.0" "beef") ].
Proof. reflexivity. Qed.

(** The scenario of the specification: a new address, the same address
    again, and the same address once more after it was deactivated. *)
Example first_subscription :
  fst (serve validator noon (PostSubscribe (post "a@b.com") "feed") empty_db)
  = inr (json 201 true "Thank you! You'll be notified when Auravia launches.").
Proof. reflexivity. Qed.

Example second_subscription :
  let d := serve_all validator
             [(noon, PostSubscribe (post "a@b.com") "feed")] empty_db in
  serve validator later (PostSubscribe (post " A@B.com ") "beef") d
  = (inr (json 409 false
            "This email is already subscribed to our newsletter."), d).
Proof. reflexivity. Qed.

Example resubscription :
  let d := serve_all validator
             [(noon, PostSubscribe (post "a@b.com") "feed");
              (noon, GetUnsubscribe (gen_random_uuid noon))] empty_db in
  serve validator later (PostSubscribe (post "a@b.com") "beef") d
  = (inr (json 200 true
            "Welcome back! You've been resubscribed to our newsletter."),
     {| rows := [ reactivated later
                    (new_row noon 1 "a@b.com" (Some "203.0.113.7")
                       "curl/8.0" "feed") ];
        next_id := 2 |}).
Proof. reflexivity. Qed.

(** A body whose [email] is a number passes [!email], and
    [sanitizeEmail] throws: the [catch] block answers 500. *)
Example numeric_email :
  serve validator noon
    (PostSubscribe {| body_email := Js.Number 42; ip := None;
                      remoteAddress := None; get_User_Agent := None |}
       "feed") two
  = (inr (json 500 false "Something went wrong. Please try again later."),
     two).
Proof. reflexivity. Qed.

(** Two visits of one unsubscribe link: both get the success page. *)
Example unsubscribe_link_visited_twice :
  let d1 := snd (serve validator noon
                   (GetUnsubscribe (unsubscribe_token ada)) two) in
  rows d1 = [deactivated ada; bob] /\
  serve validator later (GetUnsubscribe (unsubscribe_token ada)) d1
  = (inr {| status := 200; sent := unsubscribed_page |}, d1).
Proof. split; reflexivity. Qed.

Example race_trace :
  run (exec_shared noon)
      (subscribe validator (post "carol@example.com") "feed") racing
  = (inr (json 409 false "This email is already subscribed."),
     {| table :=
          {| rows := [ada; bob;
                      new_row later 3 "carol@example.com" None "Unknown" "beef"];
             next_id := 5 |};
        meanwhile := [] |},
     [ Ev (SelectByEmail "carol@example.com") (inr []);
       Ev (InsertSubscriber "carol@example.com" (Some "203.0.113.7")
             "curl/8.0" "feed")
          (inl (PgError unique_violation)) ]).
Proof. reflexivity. Qed.

(** Across the clock change of October 2023 the week of the statistics
    begins seven calendar days before today, an hour more than seven
    times twenty-four hours; a signup half an hour after that local
    midnight is counted. *)
Example week_across_clock_change :
  days_ago november 7 = current_date november - 7 * day - 3600000000.
Proof. reflexivity. Qed.

Example signup_after_local_midnight :
  fst (serve validator november GetStats
         {| rows := [ {| id := 1; email := "eve@example.com";
                         subscribed_at := 1698186600000000;
                         ip_address := None; user_agent := "Unknown";
                         is_active := true; confirmed := false;
                         confirmation_token := "facade";
                         unsubscribe_token := "3f2b8c1e-0000-4000-8000-00000000000e" |} ];
            next_id := 2 |})
  = inr {| status := 200;
           sent := JsonStats true
                     {| total_subscribers := 1; active_subscribers := 1;
                        confirmed_subscribers := 0; today_signups := 0;
                        week_signups := 1; month_signups := 1 |} |}.
Proof. reflexivity. Qed.

(** [emailRegex] rejects a no-break space (U+00A0, the bytes 194 and
    160 of the UTF-8 text) like any other white space, and [length]
    counts code units. *)
Example no_break_space_rejected :
  Client.emailRegex_test
    (String "a" (String (ascii_of_nat 194) (String (ascii_of_nat 160) "b@c.d")))
  = false /\
  Client.emailRegex_test "ab@c.d" = true.
Proof. split; reflexivity. Qed.

Example length_in_code_units : Js.length Page.button_label = 17%nat.
Proof. reflexivity. Qed.

Lemma subscribe_inactive_welcomes_back_witness :
  exists d' t1 t2 r',
    serve validator noon (PostSubscribe (post " Bob@Example.COM ") "feed") two
    = (inr (json 200 true
              "Welcome back! You've been resubscribed to our newsletter."),
       d') /\
    rows two = t1 ++ bob :: t2 /\
    rows d' = t1 ++ r' :: t2 /\
    id r' = id bob /\ email r' = email bob /\
    is_active r' = true /\
    subscribed_at r' = current_timestamp noon /\
    List.length (filter (fun x => String.eqb (email x)
                                    (normalized validator " Bob@Example.COM "))
                        (rows d')) = 1%nat /\
    List.length (rows d') = List.length (rows two).
Proof.
  apply (subscribe_inactive_welcomes_back validator noon
           (post " Bob@Example.COM ") "feed" " Bob@Example.COM " two bob).
  - exact two_well_formed.
  - reflexivity.
  - reflexivity.
  - simpl. auto.
  - reflexivity.
  - reflexivity.
Defined.

Lemma subscribe_reactivation_frame_witness :
  exists o d' t1 t2 r',
    serve validator noon (PostSubscribe (post "bob@example.com") "feed") two
    = (o, d') /\
    rows two = t1 ++ bob :: t2 /\
    rows d' = t1 ++ r' :: t2 /\
    next_id d' = next_id two /\
    id r' = id bob /\
    email r' = email bob /\
    ip_address r' = ip_address bob /\
    user_agent r' = user_agent bob /\
    confirmed r' = confirmed bob /\
    confirmation_token r' = confirmation_token bob /\
    unsubscribe_token r' = unsubscribe_token bob.
Proof.
  apply (subscribe_reactivation_frame validator noon
           (post "bob@example.com") "feed" "bob@example.com" two bob).
  - exact two_well_formed.
  - reflexivity.
  - reflexivity.
  - simpl. auto.
  - reflexivity.
  - reflexivity.
Defined.

Lemma subscribe_active_conflict_witness :
  serve validator noon (PostSubscribe (post "ADA@example.com") "feed") two
  = (inr (json 409 false
            "This email is already subscribed to our newsletter."), two).
Proof.
  apply (subscribe_active_conflict validator noon
           (post "ADA@example.com") "feed" "ADA@example.com" two ada).
  - exact two_well_formed.
  - reflexivity.
  - reflexivity.
  - simpl. auto.
  - reflexivity.
  - reflexivity.
Defined.


Lemma subscribe_rejects_bad_email_witness :
  exists m,
    run (exec_query noon)
        (subscribe validator (post "not-an-email") "feed") two
    = (inr (json 400 false m), two, []).
Proof.
  apply (subscribe_rejects_bad_email validator (exec_query noon)
           (post "not-an-email") "feed" two).
  right. exists "not-an-email". split; [reflexivity|].
  left. reflexivity.
Defined.

Lemma subscribe_insert_conflict_409_witness :
  fst (fst (run (exec_shared noon)
              (subscribe validator (post "carol@example.com") "feed") racing))
  = inr (json 409 false "This email is already subscribed.").
Proof.
  apply (subscribe_insert_conflict_409 validator (exec_shared noon)
           (post "carol@example.com") "feed" racing
           (snd (fst (run (exec_shared noon)
                        (subscribe validator (post "carol@example.com") "feed")
                        racing)))
           _
           (snd (run (exec_shared noon)
                   (subscribe validator (post "carol@example.com") "feed")
                   racing))).
  - reflexivity.
  - reflexivity.
Defined.

Lemma unsubscribe_unknown_token_witness :
  serve validator noon (GetUnsubscribe "no-such-token") two
  = (inr {| status := 404; sent := invalid_link_page |}, two).
Proof.
  apply (unsubscribe_unknown_token validator noon "no-such-token" two).
  simpl. intros x [<- | [<- | []]]; discriminate.
Defined.

Lemma unsubscribe_second_visit_succeeds_witness :
  exists d1,
    serve validator noon (GetUnsubscribe (unsubscribe_token ada)) two
    = (inr {| status := 200; sent := unsubscribed_page |}, d1) /\
    In (deactivated ada) (rows d1) /\
    is_active (deactivated ada) = false /\
    unsubscribe_token (deactivated ada) = unsubscribe_token ada /\
    serve validator later (GetUnsubscribe (unsubscribe_token ada)) d1
    = (inr {| status := 200; sent := unsubscribed_page |}, d1).
Proof.
  apply (unsubscribe_second_visit_succeeds validator noon later
           (unsubscribe_token ada) two ada).
  - simpl. auto.
  - reflexivity.
Defined.

End Runs.

(* ================================================================== *)
(** ** The page's regular expression *)

Section Regex.

Import Client.

Lemma plain_iff (u : N) : plain u = true <-> unit_ok u.
Proof.
  unfold plain, unit_ok, at_sign.
  rewrite andb_true_iff, !negb_true_iff, N.eqb_neq. tauto.
Qed.

Lemma plain1_iff (s : list N) :
  plain1 s = true <-> s <> [] /\ forall u, In u s -> unit_ok u.
Proof.
  induction s as [|c s IH].
  - simpl. split; [discriminate | intros [H _]; now elim H].
  - destruct s as [|d s'].
    + simpl. rewrite plain_iff. split.
      * intros H. split; [discriminate|]. intros u [<- | []]. exact H.
      * intros [_ H]. apply H. now left.
    + change (plain1 (c :: d :: s')) with (plain c && plain1 (d :: s')).
      rewrite andb_true_iff, IH, plain_iff. split.
      * intros (Hc & _ & Hs). split; [discriminate|].
        intros u [<- | Hu]; [exact Hc | now apply Hs].
      * intros (_ & H). split; [apply H; now left|].
        split; [discriminate|]. intros u Hu. apply H. now right.
Qed.

Lemma domain_sound (s : list N) :
  domain s = true ->
  exists a b, s = a ++ 46%N :: b /\ a <> [] /\ b <> [] /\
    forall u, In u (a ++ b) -> unit_ok u.
Proof.
  induction s as [|c s IH]; simpl; [discriminate|].
  intros H. apply andb_true_iff in H as [Hc H]. apply plain_iff in Hc.
  destruct s as [|d s']; [discriminate|].
  apply orb_true_iff in H as [H | H].
  - apply andb_true_iff in H as [Hd Hp].
    apply N.eqb_eq in Hd. subst d.
    apply plain1_iff in Hp as [Hne Hp].
    exists [c], s'.
    split; [reflexivity|]. split; [discriminate|]. split; [assumption|].
    intros u [<- | Hu]; [exact Hc | now apply Hp].
  - destruct (IH H) as (a & b & E & Ha & Hb & Hp).
    exists (c :: a), b. simpl. rewrite E.
    split; [reflexivity|]. split; [discriminate|]. split; [assumption|].
    intros u [<- | Hu]; [exact Hc | now apply Hp].
Qed.

Lemma domain_complete (a b : list N) :
  a <> [] -> b <> [] ->
  (forall u, In u (a ++ b) -> unit_ok u) ->
  domain (a ++ 46%N :: b) = true.
Proof.
  intros Ha Hb Hp.
  induction a as [|c a IH]; [now elim Ha|].
  assert (Hc : plain c = true) by (apply plain_iff, Hp; now left).
  assert (Hrest : forall u, In u (a ++ b) -> unit_ok u)
    by (intros u Hu; apply Hp; now right).
  cbn [app domain]. rewrite Hc. cbn [andb].
  destruct a as [|d a'].
  - cbn [app]. change (46 =? dot)%N with true. cbn [andb].
    apply orb_true_iff. left. apply plain1_iff. now split.
  - cbn [app]. apply orb_true_iff. right.
    apply IH; [discriminate | assumption].
Qed.

Lemma emailRegex_sound (s : list N) :
  emailRegex_units s = true -> emailRegex_language s.
Proof.
  induction s as [|c s IH]; simpl; [discriminate|].
  intros H. apply andb_true_iff in H as [Hc H]. apply plain_iff in Hc.
  destruct s as [|d s']; [discriminate|].
  apply orb_true_iff in H as [H | H].
  - apply andb_true_iff in H as [Hd Hdom].
    apply N.eqb_eq in Hd. subst d.
    destruct (domain_sound _ Hdom) as (a & b & E & Ha & Hb & Hp).
    exists [c], a, b. rewrite E.
    split; [reflexivity|]. split; [discriminate|].
    split; [assumption|]. split; [assumption|].
    intros u [<- | Hu]; [exact Hc | now apply Hp].
  - destruct (IH H) as (l & a & b & E & Hl & Ha & Hb & Hp).
    exists (c :: l), a, b. simpl. rewrite E.
    split; [reflexivity|]. split; [discriminate|].
    split; [assumption|]. split; [assumption|].
    intros u [<- | Hu]; [exact Hc | now apply Hp].
Qed.

Lemma emailRegex_complete (s : list N) :
  emailRegex_language s -> emailRegex_units s = true.
Proof.
  intros (l & a & b & -> & Hl & Ha & Hb & Hp).
  induction l as [|c l IH]; [now elim Hl|].
  assert (Hc : plain c = true) by (apply plain_iff, Hp; now left).
  assert (Hrest : forall u, In u (l ++ a ++ b) -> Js.white_space u = false /\ u <> 64%N)
    by (intros u Hu; apply Hp; now right).
  cbn [app emailRegex_units]. rewrite Hc. cbn [andb].
  destruct l as [|d l'].
  - cbn [app]. change (64 =? at_sign)%N with true. cbn [andb].
    apply orb_true_iff. left. apply domain_complete; assumption.
  - cbn [app]. apply orb_true_iff. right.
    apply IH; [discriminate | assumption].
Qed.

(** X2. On the code units of a string, [emailRegex] accepts exactly
    three non-empty runs of code units that are neither white space (the
    class [\s]: U+0009 to U+000D, U+0020, U+00A0, U+1680, U+2000 to
    U+200A, U+2028, U+2029, U+202F, U+205F, U+3000, U+FEFF) nor [@],
    separated by one [@] and a dot. *)
Theorem emailRegex_accepts_its_language (s : list N) :
  emailRegex_units s = true <-> emailRegex_language s.
Proof.
  split; [apply emailRegex_sound | apply emailRegex_complete].
Qed.

End Regex.

(* ================================================================== *)
(** ** The subscription route against any store, in full *)

Section SubscribeRuns.

Variable V : Imports.
Context {S : Type} (exec : forall R : Type, query R -> S -> (exn + R) * S).

Lemma subscribe_catch_reply (e : exn) :
  subscribe_catch e = Ret (caught_reply e).
Proof.
  unfold subscribe_catch, caught_reply, caught_status.
  destruct (error_code e) as [c|]; [|reflexivity].
  destruct (String.eqb c unique_violation); reflexivity.
Qed.

Lemma caught_reply_cases (e : exn) :
  caught_reply e = json 409 false "This email is already subscribed." \/
  caught_reply e = json 500 false "Something went wrong. Please try again later.".
Proof.
  unfold caught_reply. destruct (caught_status e =? 409); auto.
Qed.

(** Every way the handler can run: one goal per path, with the answers
    of the store named in the context. *)
Ltac subscribe_paths req st :=
  unfold subscribe, subscribe_try;
  destruct (Js.truthy (body_email req)) eqn:Htruthy; cbn [negb];
  [ destruct (sanitizeEmail V (body_email req)) as [err|a] eqn:Hsan;
    cbn [call bind try_catch];
    [ rewrite subscribe_catch_reply
    | destruct (validateEmail V a) eqn:Hvalid; cbn [negb];
      [ cbn [await bind try_catch run];
        destruct (exec _ (SelectByEmail a) st) as [[err|found] st1] eqn:Hsel;
        cbn [bind try_catch];
        [ rewrite subscribe_catch_reply
        | destruct found as [|[i active] rest]; cbn [bind try_catch];
          [ cbn [await bind try_catch run];
            destruct (exec _ (InsertSubscriber a _ _ _) st1)
              as [[err|n] st2] eqn:Hins;
            cbn [bind try_catch]; [rewrite subscribe_catch_reply|]
          | destruct active; cbn [bind try_catch];
            [ | cbn [await bind try_catch run];
                destruct (exec _ (Reactivate a) st1)
                  as [[err|n] st2] eqn:Hupd;
                cbn [bind try_catch]; [rewrite subscribe_catch_reply|] ] ] ]
      | ] ]
  | ];
  cbn [run bind try_catch].

(** X3. Whatever the store answers, the handler of the subscription
    route (the function behind the rate limiters, which answer 429
    themselves) sends a response, and it is one of seven fixed replies:
    statuses 200, 201, 400, 409 and 500 only, with [success] true
    exactly for 200 and 201. *)
Theorem subscribe_answers_one_of_seven (req : request) (ctok : string)
    (st : S) :
  exists resp,
    fst (fst (run exec (subscribe V req ctok) st)) = inr resp /\
    In resp subscribe_replies.
Proof.
  subscribe_paths req st.
  all: eexists; split; [reflexivity|].
  all: try (destruct (caught_reply_cases err) as [-> | ->]).
  all: simpl; tauto.
Qed.

(** X4. The route never writes before it has read, and never for an
    address that failed the validation: it sends nothing, or one
    [SELECT] for the validated normalised address, followed by at most
    one statement for that same address, an [INSERT] when the [SELECT]
    returned no row, the reactivating [UPDATE] when the first row
    returned is inactive. *)
Theorem subscribe_statement_order (req : request) (ctok : string) (st : S) :
  let tr := snd (run exec (subscribe V req ctok) st) in
  tr = [] \/
  exists s, body_email req = Js.Str s /\
    validateEmail V (normalized V s) = true /\
    ((exists r, tr = [Ev (SelectByEmail (normalized V s)) r]) \/
     (exists r, tr = [Ev (SelectByEmail (normalized V s)) (inr []);
                      Ev (InsertSubscriber (normalized V s)
                            (Js.or_else (ip req) (remoteAddress req))
                            (Js.or_literal (get_User_Agent req) "Unknown")
                            ctok) r]) \/
     (exists i rest r,
        tr = [Ev (SelectByEmail (normalized V s)) (inr ((i, false) :: rest));
              Ev (Reactivate (normalized V s)) r])).
Proof.
  subscribe_paths req st.
  all: try (left; reflexivity).
  all: destruct (body_email req) as [| |flag|num|s|]; try discriminate Hsan.
  all: injection Hsan as <-; fold (normalized V s) in *.
  all: right; exists s; split; [reflexivity|]; split; [assumption|].
  all: cbn [snd];
    first [ left; eexists; reflexivity
          | right; left; eexists; reflexivity
          | right; right; do 3 eexists; reflexivity ].
Qed.

(** X5. Success is only reported after the store accepted the write:
    the route answers 201 exactly when its [INSERT] was accepted, and 200
    exactly when its reactivating [UPDATE] was. *)
Theorem subscribe_success_needs_write (req : request) (ctok : string)
    (st : S) :
  exists resp,
    fst (fst (run exec (subscribe V req ctok) st)) = inr resp /\
    (status resp = 201 <->
     existsb insert_accepted (snd (run exec (subscribe V req ctok) st)) = true) /\
    (status resp = 200 <->
     existsb update_accepted (snd (run exec (subscribe V req ctok) st)) = true).
Proof.
  subscribe_paths req st.
  all: eexists; split; [reflexivity|].
  all: try (destruct (caught_reply_cases err) as [-> | ->]).
  all: simpl; split; split; try discriminate; reflexivity.
Qed.

(** X6. When the store rejects a statement of the route, the [catch]
    block decides alone: 409 "already subscribed" for SQLSTATE 23505,
    whichever statement it came from, and 500 for every other error. *)
Theorem subscribe_rejection_caught (req : request) (ctok : string) (st : S)
    (e : exn) :
  thrown (snd (run exec (subscribe V req ctok) st)) = Some e ->
  fst (fst (run exec (subscribe V req ctok) st)) = inr (caught_reply e).
Proof.
  subscribe_paths req st.
  all: simpl; intros H; try discriminate H.
  all: injection H as <-; reflexivity.
Qed.

(** X7. An [email] that is truthy but not a string (a number, [true], an
    array, an object) is not answered 400: [sanitizeEmail] throws, and
    the route answers 500 without sending any statement. *)
Theorem subscribe_non_string_email (req : request) (ctok : string) (st : S) :
  Js.truthy (body_email req) = true ->
  (forall s, body_email req <> Js.Str s) ->
  run exec (subscribe V req ctok) st
  = (inr (json 500 false "Something went wrong. Please try again later."),
     st, []).
Proof.
  intros Ht Hns. unfold subscribe, subscribe_try. rewrite Ht.
  destruct (body_email req) as [| |flag|num|s|]; try reflexivity.
  now elim (Hns s).
Qed.

(** X8. No route lets an error escape: whatever the store answers, each
    handler sends a response; and the unsubscribe, stats, export and
    health routes answer 500 exactly when the store rejected their
    statement. *)
Theorem routes_always_answer (op : operation) (st : S) :
  exists resp,
    fst (fst (run exec (handler V op) st)) = inr resp /\
    match op with
    | PostSubscribe _ _ => True
    | _ => status resp = 500 <->
           thrown (snd (run exec (handler V op) st)) <> None
    end.
Proof.
  destruct op as [req ctok|token| | |now]; simpl.
  - destruct (subscribe_responds V exec req ctok st) as (resp & H).
    exists resp. now split.
  - unfold unsubscribe; simpl.
    destruct (exec _ (Deactivate token) st) as [[e|[|x l]] st1]; simpl;
      eexists; (split; [reflexivity|]); simpl;
      split; congruence.
  - unfold stats; simpl.
    destruct (exec _ SelectStats st) as [[e|x] st1]; simpl;
      eexists; (split; [reflexivity|]); simpl; split; congruence.
  - unfold export; simpl.
    destruct (exec _ SelectExport st) as [[e|x] st1]; simpl;
      eexists; (split; [reflexivity|]); simpl; split; congruence.
  - unfold health; simpl.
    destruct (exec _ SelectOne st) as [[e|x] st1]; simpl;
      eexists; (split; [reflexivity|]); simpl; split; congruence.
Qed.

(** *** The page and the handler together *)

Lemma submit_sent (B : Imports) (f : Page.form) (e : string) :
  snd (Page.submit B f) = Some e ->
  e = trim B (Page.emailInput_value f) /\
  Client.emailRegex_test e = true /\
  Page.submit B f
  = (Page.set_button "Submitting..." true (Page.clear_message f), Some e).
Proof.
  unfold Page.submit.
  destruct (String.eqb (trim B (Page.emailInput_value f)) EmptyString);
    [discriminate|].
  destruct (Client.emailRegex_test (trim B (Page.emailInput_value f))) eqn:E;
    simpl; [|discriminate].
  intros H. injection H as <-. repeat split. exact E.
Qed.

(** X22. The page sends a request exactly when the trimmed content of
    the input box is accepted by [emailRegex], and what it sends is that
    trimmed content; for an empty or rejected input it sends nothing and
    shows an error; in no case does submitting change the input box. *)
Theorem page_sends_only_checked_input (f : Page.form) :
  (forall e, snd (Page.submit V f) = Some e <->
     e = trim V (Page.emailInput_value f) /\
     Client.emailRegex_test e = true) /\
  Page.emailInput_value (fst (Page.submit V f)) = Page.emailInput_value f /\
  (snd (Page.submit V f) = None <->
   Page.formMessage_className (fst (Page.submit V f)) = "form-message error").
Proof.
  unfold Page.submit.
  destruct (String.eqb (trim V (Page.emailInput_value f)) EmptyString) eqn:E0.
  - apply String.eqb_eq in E0. simpl.
    repeat split; try discriminate; try reflexivity.
    intros [-> H]. rewrite E0 in H. discriminate.
  - destruct (Client.emailRegex_test (trim V (Page.emailInput_value f))) eqn:E;
      simpl.
    + repeat split; try discriminate; try reflexivity.
      * now injection H as <-.
      * now injection H as <-.
      * intros [-> _]. reflexivity.
    + repeat split; try discriminate; try reflexivity.
      intros [-> H]. congruence.
Qed.

(** X23. What the page sends always passes the first check of the
    handler: [emailRegex] accepts no empty string, so the [email] of a
    request of the page is a non-empty string, and the handler never
    answers it "Email address is required.", whatever the store does.
    ([B] holds the string methods of the browser, [V] those of the
    server.) *)
Theorem page_request_is_present (B : Imports) (f : Page.form)
    (e ctok : string) (addr remote agent : option string) (st : S) :
  snd (Page.submit B f) = Some e ->
  Js.truthy (Js.Str e) = true /\
  fst (fst (run exec (subscribe V (Page.posted e addr remote agent) ctok) st))
  <> inr (json 400 false "Email address is required.").
Proof.
  intros H. apply submit_sent in H as (_ & Hre & _).
  assert (Ht : Js.truthy (Js.Str e) = true).
  { destruct e; [discriminate Hre | reflexivity]. }
  split; [exact Ht|].
  subscribe_paths (Page.posted e addr remote agent) st.
  all: try (destruct (caught_reply_cases err) as [-> | ->]).
  all: try (cbn [fst]; discriminate).
  all: cbn [Page.posted body_email] in Htruthy; rewrite Ht in Htruthy;
    discriminate.
Qed.

(** X24. The page shows what the handler answered. For a request the
    page sent and the rate limiters let through to the handler, whatever
    the store did, the handler's reply is a JSON object with [success]
    and [message]; the [then] callback shows that message, with class
    "success" exactly when the handler reports success (200 or 201), the
    button is enabled again, and the input box is emptied on success and
    only then. ([B] holds the string methods of the browser.) *)
Theorem page_shows_server_reply (B : Imports) (f f1 : Page.form)
    (e ctok : string) (addr remote agent : option string) (st : S) :
  Page.submit B f = (f1, Some e) ->
  exists c success m,
    fst (fst (run exec (subscribe V (Page.posted e addr remote agent) ctok) st))
    = inr (json c success m) /\
    (success = true <-> c = 200 \/ c = 201) /\
    Page.formMessage_textContent (Page.on_data success m f1) = m /\
    Page.formMessage_className (Page.on_data success m f1)
    = (if success then "form-message success" else "form-message error") /\
    Page.notifyBtn_disabled (Page.on_data success m f1) = false /\
    Page.notifyBtn_textContent (Page.on_data success m f1) = Page.button_label /\
    Page.emailInput_value (Page.on_data success m f1)
    = (if success then EmptyString else Page.emailInput_value f).
Proof.
  intros H.
  assert (Hf1 : Page.emailInput_value f1 = Page.emailInput_value f).
  { pose proof (f_equal snd H) as Hs. simpl in Hs.
    apply submit_sent in Hs as (_ & _ & Hs). rewrite H in Hs.
    injection Hs as ->. reflexivity. }
  subscribe_paths (Page.posted e addr remote agent) st.
  all: try (destruct (caught_reply_cases err) as [-> | ->]).
  all: do 3 eexists; (split; [reflexivity|]).
  all: simpl; rewrite ?Hf1; repeat split; try reflexivity;
    try discriminate; try lia; intros [?|?]; discriminate.
Qed.

End SubscribeRuns.

(* ================================================================== *)
(** ** The scroll throttle of the page *)

Section Throttle.

Lemma react_keeps_one (t : Page.throttle) (h : Page.happening) :
  Page.queued t = (if Page.ticking t then 1 else 0)%nat ->
  Page.queued (Page.react t h)
  = (if Page.ticking (Page.react t h) then 1 else 0)%nat.
Proof.
  destruct t as [tk q]. simpl. intros ->.
  destruct h, tk; reflexivity.
Qed.

(** X25. However scroll events and animation frames alternate after the
    page has loaded, at most one [updateWatermark] callback is waiting:
    exactly one while [ticking] is set, none otherwise. *)
Theorem at_most_one_frame_queued (l : list Page.happening) :
  let t := fold_left Page.react l Page.loaded in
  Page.queued t = (if Page.ticking t then 1 else 0)%nat.
Proof.
  cbv zeta.
  assert (H : forall t,
            Page.queued t = (if Page.ticking t then 1 else 0)%nat ->
            Page.queued (fold_left Page.react l t)
            = (if Page.ticking (fold_left Page.react l t) then 1 else 0)%nat).
  { induction l as [|h l IH]; intros t Ht; simpl; [assumption|].
    apply IH. now apply react_keeps_one. }
  apply H. reflexivity.
Qed.

End Throttle.

(* ================================================================== *)
(** ** The life cycle of a row *)

Section LifeCycle.

Variable V : Imports.

Ltac validated Hb Ht Hval :=
  unfold normalized in *;
  unfold serve, handler, subscribe, subscribe_try;
  rewrite Hb, Ht; simpl; rewrite Hval; simpl.

(** With a unique key, the rows around the one that holds a value hold
    other values. *)
Lemma split_others {K : Type} (key : subscriber -> K)
    (t1 t2 : list subscriber) (r : subscriber) :
  NoDup (map key (t1 ++ r :: t2)) ->
  forall x, In x (t1 ++ t2) -> key x <> key r.
Proof.
  intros Hnd x Hx Heq.
  rewrite map_app in Hnd. simpl in Hnd.
  apply NoDup_remove_2 in Hnd. apply Hnd.
  rewrite <- Heq, <- map_app. now apply in_map.
Qed.

Lemma deactivate_unique (t1 t2 : list subscriber) (r : subscriber) :
  (forall x, In x (t1 ++ t2) -> unsubscribe_token x <> unsubscribe_token r) ->
  deactivate (unsubscribe_token r) (t1 ++ r :: t2)
  = t1 ++ deactivated r :: t2.
Proof.
  intros H. unfold deactivate.
  rewrite map_app. simpl. rewrite String.eqb_refl.
  rewrite !map_fixed; [reflexivity| |];
    intros x Hx; rewrite eqb_other; auto; apply H, in_or_app; auto.
Qed.

(** The insertion branch, in full. *)
Lemma subscribe_insertion (env : db_env) (req : request) (ctok s : string)
    (d : db) :
  body_email req = Js.Str s ->
  Js.truthy (Js.Str s) = true ->
  validateEmail V (normalized V s) = true ->
  (forall x, In x (rows d) -> email x <> normalized V s) ->
  (forall x, In x (rows d) -> unsubscribe_token x <> gen_random_uuid env) ->
  inet_ok env (Js.or_else (ip req) (remoteAddress req)) = true ->
  next_id d <= serial_max ->
  serve V env (PostSubscribe req ctok) d
  = (inr (json 201 true "Thank you! You'll be notified when Auravia launches."),
     {| rows := rows d ++
                [new_row env (next_id d) (normalized V s)
                   (Js.or_else (ip req) (remoteAddress req))
                   (Js.or_literal (get_User_Agent req) "Unknown") ctok];
        next_id := next_id d + 1 |}).
Proof.
  intros Hb Ht Hval Hnew Hfresh Hip Hseq.
  validated Hb Ht Hval.
  rewrite select_by_email_none by assumption.
  cbn [bind try_catch await run].
  now rewrite (insert_goes_through env _ _ _ ctok d Hip Hseq Hnew Hfresh).
Qed.

(** X26. A new, valid address is not stored, and the request answered
    500, when the store refuses the row before looking at it: the client
    address of the request (req.ip, else the socket's remote address) is
    not one the [INET] column reads, or the [id] sequence has given its
    last value. The table, id sequence included, is unchanged. *)
Theorem subscribe_row_refused (env : db_env) (req : request)
    (ctok s : string) (d : db) :
  body_email req = Js.Str s ->
  Js.truthy (Js.Str s) = true ->
  validateEmail V (normalized V s) = true ->
  (forall x, In x (rows d) -> email x <> normalized V s) ->
  inet_ok env (Js.or_else (ip req) (remoteAddress req)) = false \/
  serial_max < next_id d ->
  serve V env (PostSubscribe req ctok) d
  = (inr (json 500 false "Something went wrong. Please try again later."), d).
Proof.
  intros Hb Ht Hval Hnew Hrefused.
  validated Hb Ht Hval.
  rewrite select_by_email_none by assumption. simpl.
  destruct (inet_ok env _) eqn:Hip; simpl; [|reflexivity].
  destruct Hrefused as [Hno | Hseq]; [discriminate|].
  destruct (Z.ltb_spec serial_max (next_id d)); [reflexivity | lia].
Qed.

(** X9. On a table with unique tokens, unsubscribing through the token
    of a row answers 200 with the success page, whether the row was
    active or not, and changes that row only, and only its [is_active],
    which becomes false. *)
Theorem unsubscribe_changes_one_flag (env : db_env) (d : db) (r : subscriber) :
  NoDup (map unsubscribe_token (rows d)) ->
  In r (rows d) ->
  exists d' t1 t2 r',
    serve V env (GetUnsubscribe (unsubscribe_token r)) d
    = (inr {| status := 200; sent := unsubscribed_page |}, d') /\
    rows d = t1 ++ r :: t2 /\
    rows d' = t1 ++ r' :: t2 /\
    next_id d' = next_id d /\
    is_active r' = false /\
    id r' = id r /\ email r' = email r /\
    subscribed_at r' = subscribed_at r /\
    ip_address r' = ip_address r /\ user_agent r' = user_agent r /\
    confirmed r' = confirmed r /\
    confirmation_token r' = confirmation_token r /\
    unsubscribe_token r' = unsubscribe_token r.
Proof.
  intros Hu Hin.
  destruct (unique_split unsubscribe_token _ _ Hu Hin)
    as (t1 & t2 & Hsplit & Hother).
  exists {| rows := t1 ++ deactivated r :: t2; next_id := next_id d |},
    t1, t2, (deactivated r).
  split.
  - rewrite (unsubscribe_known_token V env _ d r Hin eq_refl).
    now rewrite Hsplit, deactivate_unique.
  - repeat split. assumption.
Qed.

(** X10. Once a new address has been subscribed (its row taken by the
    store: 201), a further request whose email normalises to the same
    address is answered 409 and leaves the table as the first request
    left it. *)
Theorem subscribe_then_again (env env' : db_env) (req req' : request)
    (ctok ctok' s s' : string) (d : db) :
  body_email req = Js.Str s ->
  Js.truthy (Js.Str s) = true ->
  validateEmail V (normalized V s) = true ->
  (forall x, In x (rows d) -> email x <> normalized V s) ->
  (forall x, In x (rows d) -> unsubscribe_token x <> gen_random_uuid env) ->
  inet_ok env (Js.or_else (ip req) (remoteAddress req)) = true ->
  next_id d <= serial_max ->
  body_email req' = Js.Str s' ->
  Js.truthy (Js.Str s') = true ->
  normalized V s' = normalized V s ->
  let d1 := snd (serve V env (PostSubscribe req ctok) d) in
  serve V env' (PostSubscribe req' ctok') d1
  = (inr (json 409 false
            "This email is already subscribed to our newsletter."), d1).
Proof.
  intros Hb Ht Hval Hnew Hfresh Hip Hseq Hb' Ht' Hsame d1. subst d1.
  rewrite (subscribe_insertion env req ctok s d Hb Ht Hval Hnew Hfresh
             Hip Hseq).
  cbn [snd].
  assert (Hval' : validateEmail V (normalized V s') = true)
    by now rewrite Hsame.
  validated Hb' Ht' Hval'.
  unfold select_by_email. rewrite filter_app, filter_none.
  - simpl. rewrite Hsame, String.eqb_refl. reflexivity.
  - intros x Hx. apply eqb_other. rewrite Hsame. now apply Hnew.
Qed.

(** X11. The unsubscribe link issued with a new subscription works:
    when the store took the row (201), a visit with the token just
    generated answers 200, makes the new row inactive and leaves every
    other row as it was. *)
Theorem subscribe_then_unsubscribe (env env' : db_env) (req : request)
    (ctok s : string) (d : db) :
  body_email req = Js.Str s ->
  Js.truthy (Js.Str s) = true ->
  validateEmail V (normalized V s) = true ->
  (forall x, In x (rows d) -> email x <> normalized V s) ->
  (forall x, In x (rows d) -> unsubscribe_token x <> gen_random_uuid env) ->
  inet_ok env (Js.or_else (ip req) (remoteAddress req)) = true ->
  next_id d <= serial_max ->
  exists n d2,
    rows (snd (serve V env (PostSubscribe req ctok) d)) = rows d ++ [n] /\
    email n = normalized V s /\ is_active n = true /\
    serve V env' (GetUnsubscribe (gen_random_uuid env))
      (snd (serve V env (PostSubscribe req ctok) d))
    = (inr {| status := 200; sent := unsubscribed_page |}, d2) /\
    rows d2 = rows d ++ [deactivated n].
Proof.
  intros Hb Ht Hval Hnew Hfresh Hip Hseq.
  rewrite (subscribe_insertion env req ctok s d Hb Ht Hval Hnew Hfresh
             Hip Hseq).
  cbn [snd rows].
  set (n := new_row env (next_id d) (normalized V s) _ _ ctok).
  exists n. eexists. repeat split.
  - erewrite (unsubscribe_known_token V env' _ _ n);
      [reflexivity | cbn [rows]; apply in_or_app; right; now left | reflexivity].
  - cbn [rows]. unfold deactivate. rewrite map_app.
    rewrite map_fixed.
    + simpl. now rewrite String.eqb_refl.
    + intros x Hx. now rewrite (eqb_other _ _ (Hfresh x Hx)).
Qed.

(** X12. Unsubscribing and subscribing again restores the row: on a
    well-formed table, after a visit of a row's unsubscribe link, a
    request for the row's address is answered 200 "welcome back", and
    the table is the original one with that row active and its
    [subscribed_at] set to the time of the second request. *)
Theorem unsubscribe_then_resubscribe (env env' : db_env) (req : request)
    (ctok s : string) (d : db) (r : subscriber) :
  well_formed V d ->
  In r (rows d) ->
  body_email req = Js.Str s ->
  Js.truthy (Js.Str s) = true ->
  normalized V s = email r ->
  exists t1 t2,
    rows d = t1 ++ r :: t2 /\
    serve V env' (PostSubscribe req ctok)
      (snd (serve V env (GetUnsubscribe (unsubscribe_token r)) d))
    = (inr (json 200 true
              "Welcome back! You've been resubscribed to our newsletter."),
       {| rows := t1 ++ reactivated env' r :: t2; next_id := next_id d |}).
Proof.
  intros [Hu Ht Hv] Hin Hb Htr He.
  assert (Hval : validateEmail V (normalized V s) = true).
  { rewrite He. rewrite Forall_forall in Hv. now apply Hv. }
  destruct (in_split r (rows d) Hin) as (t1 & t2 & Hsplit).
  exists t1, t2. split; [assumption|].
  rewrite Hsplit in Hu, Ht.
  pose proof (split_others email t1 t2 r Hu) as Hemails.
  pose proof (split_others unsubscribe_token t1 t2 r Ht) as Htokens.
  rewrite (unsubscribe_known_token V env _ d r Hin eq_refl).
  cbn [snd]. rewrite Hsplit, deactivate_unique by assumption.
  validated Hb Htr Hval. rewrite He.
  change (email r) with (email (deactivated r)) at 1.
  rewrite select_by_email_unique by exact Hemails.
  simpl.
  change (email r) with (email (deactivated r)).
  rewrite reactivate_unique by exact Hemails.
  reflexivity.
Qed.

End LifeCycle.

(* ================================================================== *)
(** ** GET /api/export, and the counters of GET /api/stats *)

Section Reports.

Variable V : Imports.
Variable env : db_env.

Lemma insert_desc_perm (r : subscriber) (l : list subscriber) :
  Permutation (insert_desc r l) (r :: l).
Proof.
  induction l as [|x l IH]; simpl; [reflexivity|].
  destruct (subscribed_at x <? subscribed_at r); [reflexivity|].
  rewrite IH. apply perm_swap.
Qed.

Lemma order_desc_perm (t : list subscriber) : Permutation (order_desc t) t.
Proof.
  induction t as [|r t IH]; simpl; [reflexivity|].
  rewrite insert_desc_perm. now constructor.
Qed.

Lemma insert_desc_sorted (r : subscriber) (l : list subscriber) :
  StronglySorted not_older l -> StronglySorted not_older (insert_desc r l).
Proof.
  induction l as [|x l IH]; intros Hs; simpl.
  - repeat constructor.
  - inversion Hs as [|x' l' Hl Hx]; subst.
    destruct (subscribed_at x <? subscribed_at r) eqn:E.
    + apply Z.ltb_lt in E. constructor; [assumption|].
      constructor; [unfold not_older; lia|].
      rewrite Forall_forall in *. intros y Hy.
      specialize (Hx y Hy). unfold not_older in *. lia.
    + apply Z.ltb_ge in E. constructor; [now apply IH|].
      rewrite Forall_forall in *. intros y Hy.
      apply (Permutation_in _ (insert_desc_perm r l)) in Hy.
      destruct Hy as [<- | Hy]; [exact E | now apply Hx].
Qed.

Lemma order_desc_sorted (t : list subscriber) :
  StronglySorted not_older (order_desc t).
Proof.
  induction t as [|r t IH]; simpl; [constructor | now apply insert_desc_sorted].
Qed.

Lemma sorted_exported (l : list subscriber) :
  StronglySorted not_older l -> newest_first (map exported l).
Proof.
  unfold newest_first.
  induction 1 as [|x l Hl IH Hx]; simpl; constructor; [assumption|].
  rewrite Forall_forall in *. intros y Hy.
  apply in_map_iff in Hy as (z & <- & Hz). simpl. now apply Hx.
Qed.

(** X13. [GET /api/export] answers 200 with the rows of exactly the
    active subscribers, each once, [count] being their number (as many
    as there are active rows); the table is unchanged. *)
Theorem export_lists_active_rows (d : db) :
  exists data,
    serve V env GetExport d
    = (inr {| status := 200;
              sent := JsonExport true data (List.length data) |}, d) /\
    Permutation data (map exported (filter (fun r => is_active r) (rows d))) /\
    Z.of_nat (List.length data) = count (fun r => is_active r) (rows d).
Proof.
  exists (select_export (rows d)).
  assert (Hf : filter (fun r => Bool.eqb (is_active r) true) (rows d)
               = filter (fun r => is_active r) (rows d)).
  { apply filter_ext. intros r. now destruct (is_active r). }
  assert (Hp : Permutation (select_export (rows d))
                 (map exported (filter (fun r => is_active r) (rows d)))).
  { unfold select_export. rewrite Hf.
    apply (Permutation_map exported), order_desc_perm. }
  split; [reflexivity|]. split; [exact Hp|].
  unfold count. rewrite (Permutation_length Hp), length_map. reflexivity.
Qed.

(** X14. The rows of [GET /api/export] come newest first: no row is
    followed by one with a later [subscribed_at]. *)
Theorem export_newest_first (d : db) :
  exists data n,
    fst (serve V env GetExport d)
    = inr {| status := 200; sent := JsonExport true data n |} /\
    newest_first data.
Proof.
  exists (select_export (rows d)), (List.length (select_export (rows d))).
  split; [reflexivity|].
  unfold select_export. apply sorted_exported, order_desc_sorted.
Qed.

Lemma count_le (p q : subscriber -> bool) (t : list subscriber) :
  (forall r, p r = true -> q r = true) -> count p t <= count q t.
Proof.
  intros H. induction t as [|r t IH].
  - unfold count. simpl. lia.
  - rewrite !count_cons. unfold count_if.
    destruct (p r) eqn:E; [rewrite (H r E); lia|].
    destruct (q r); lia.
Qed.

Lemma count_bounds (p : subscriber -> bool) (t : list subscriber) :
  0 <= count p t <= Z.of_nat (List.length t).
Proof.
  unfold count. pose proof (filter_length_le p t). lia.
Qed.

Lemma select_stats_counts (t : list subscriber) :
  let st := select_stats env t in
  total_subscribers st = Z.of_nat (List.length t) /\
  active_subscribers st = count (fun r => Bool.eqb (is_active r) true) t /\
  confirmed_subscribers st = count (fun r => Bool.eqb (confirmed r) true) t /\
  today_signups st = count (fun r => current_date env <=? subscribed_at r) t /\
  week_signups st = count (fun r => days_ago env 7 <=? subscribed_at r) t /\
  month_signups st = count (fun r => days_ago env 30 <=? subscribed_at r) t.
Proof.
  destruct (fold_stats env t stats_zero) as (H1 & H2 & H3 & H4 & H5 & H6).
  unfold select_stats. cbv zeta. rewrite H1, H2, H3, H4, H5, H6. simpl.
  repeat split.
Qed.

(** X15. The counters of [GET /api/stats] are nested: today's signups
    are among the week's, the week's among the month's, and none of the
    six counters is negative or exceeds the total. *)
Theorem stats_counters_nested (d : db) :
  exists st,
    serve V env GetStats d
    = (inr {| status := 200; sent := JsonStats true st |}, d) /\
    0 <= today_signups st <= week_signups st /\
    week_signups st <= month_signups st /\
    month_signups st <= total_subscribers st /\
    0 <= active_subscribers st <= total_subscribers st /\
    0 <= confirmed_subscribers st <= total_subscribers st.
Proof.
  exists (select_stats env (rows d)). split; [reflexivity|].
  destruct (select_stats_counts (rows d)) as (H1 & H2 & H3 & H4 & H5 & H6).
  rewrite H1, H2, H3, H4, H5, H6.
  repeat split; try apply count_bounds.
  - apply count_le. intros r H. unfold current_date, days_ago in *.
    rewrite on_or_after in *. apply Z.leb_le in H. apply Z.leb_le. lia.
  - apply count_le. intros r H. unfold days_ago in *.
    rewrite on_or_after in *. apply Z.leb_le in H. apply Z.leb_le. lia.
Qed.

(** X16. The two reports agree: on one table, the [count] of
    [GET /api/export] is the [active_subscribers] of [GET /api/stats]. *)
Theorem export_count_is_stats_active (env' : db_env) (d : db) :
  exists data n st,
    fst (serve V env GetExport d)
    = inr {| status := 200; sent := JsonExport true data n |} /\
    fst (serve V env' GetStats d)
    = inr {| status := 200; sent := JsonStats true st |} /\
    Z.of_nat n = active_subscribers st.
Proof.
  exists (select_export (rows d)),
    (List.length (select_export (rows d))), (select_stats env' (rows d)).
  split; [reflexivity|]. split; [reflexivity|].
  pose proof (fold_stats env' (rows d) stats_zero) as (_ & H2 & _).
  unfold select_stats. rewrite H2. simpl.
  unfold count, select_export.
  now rewrite length_map, (Permutation_length (order_desc_perm _)).
Qed.

End Reports.

(* ================================================================== *)
(** ** How the operations move the counters *)

Section Counters.

Variable V : Imports.

Lemma count_app (p : subscriber -> bool) (a b : list subscriber) :
  count p (a ++ b) = count p a + count p b.
Proof.
  unfold count. rewrite filter_app, length_app. lia.
Qed.

Lemma count_one (p : subscriber -> bool) (r : subscriber) :
  count p [r] = if p r then 1 else 0.
Proof. unfold count. simpl. now destruct (p r). Qed.

(** X17. A new subscription shows in the statistics at once: when the
    store took the new row (201), statistics whose current calendar day,
    in their session's time zone, is the day the subscription falls on
    (or an earlier one) count one more subscriber in total, one more
    active, and one more signup today, this week and this month; the
    confirmed count does not move. *)
Theorem stats_after_subscription (env env' : db_env) (req : request)
    (ctok s : string) (d : db) :
  body_email req = Js.Str s ->
  Js.truthy (Js.Str s) = true ->
  validateEmail V (normalized V s) = true ->
  (forall x, In x (rows d) -> email x <> normalized V s) ->
  (forall x, In x (rows d) -> unsubscribe_token x <> gen_random_uuid env) ->
  inet_ok env (Js.or_else (ip req) (remoteAddress req)) = true ->
  next_id d <= serial_max ->
  day_of (time_zone env') (current_timestamp env')
  <= day_of (time_zone env') (current_timestamp env) ->
  exists st st',
    fst (serve V env' GetStats d)
    = inr {| status := 200; sent := JsonStats true st |} /\
    fst (serve V env' GetStats (snd (serve V env (PostSubscribe req ctok) d)))
    = inr {| status := 200; sent := JsonStats true st' |} /\
    total_subscribers st' = total_subscribers st + 1 /\
    active_subscribers st' = active_subscribers st + 1 /\
    confirmed_subscribers st' = confirmed_subscribers st /\
    today_signups st' = today_signups st + 1 /\
    week_signups st' = week_signups st + 1 /\
    month_signups st' = month_signups st + 1.
Proof.
  intros Hb Ht Hval Hnew Hfresh Hip Hseq Hday.
  rewrite (subscribe_insertion V env req ctok s d Hb Ht Hval Hnew Hfresh
             Hip Hseq).
  cbn [snd].
  eexists _, _. split; [reflexivity|]. split; [reflexivity|].
  cbn [rows].
  destruct (select_stats_counts env' (rows d)) as (H1 & H2 & H3 & H4 & H5 & H6).
  destruct (select_stats_counts env'
              (rows d ++ [new_row env (next_id d) (normalized V s)
                            (Js.or_else (ip req) (remoteAddress req))
                            (Js.or_literal (get_User_Agent req) "Unknown")
                            ctok]))
    as (G1 & G2 & G3 & G4 & G5 & G6).
  rewrite H1, H2, H3, H4, H5, H6, G1, G2, G3, G4, G5, G6.
  rewrite !count_app, !count_one, length_app. cbn [List.length].
  assert (E0 : (current_date env' <=? current_timestamp env) = true)
    by (unfold current_date; rewrite on_or_after; apply Z.leb_le; lia).
  assert (E7 : (days_ago env' 7 <=? current_timestamp env) = true)
    by (unfold days_ago; rewrite on_or_after; apply Z.leb_le; lia).
  assert (E30 : (days_ago env' 30 <=? current_timestamp env) = true)
    by (unfold days_ago; rewrite on_or_after; apply Z.leb_le; lia).
  cbn [new_row is_active confirmed subscribed_at Bool.eqb].
  rewrite E0, E7, E30. repeat split; lia.
Qed.

(** X18. Unsubscribing moves one counter only: on a table with unique
    tokens, after a visit of an active row's unsubscribe link the
    statistics count one active subscriber less, and every other counter
    is what it was. *)
Theorem stats_after_unsubscribe (env env' : db_env) (d : db) (r : subscriber) :
  NoDup (map unsubscribe_token (rows d)) ->
  In r (rows d) ->
  is_active r = true ->
  exists st st',
    fst (serve V env' GetStats d)
    = inr {| status := 200; sent := JsonStats true st |} /\
    fst (serve V env' GetStats
           (snd (serve V env (GetUnsubscribe (unsubscribe_token r)) d)))
    = inr {| status := 200; sent := JsonStats true st' |} /\
    active_subscribers st' = active_subscribers st - 1 /\
    total_subscribers st' = total_subscribers st /\
    confirmed_subscribers st' = confirmed_subscribers st /\
    today_signups st' = today_signups st /\
    week_signups st' = week_signups st /\
    month_signups st' = month_signups st.
Proof.
  intros Hu Hin Hact.
  destruct (unique_split unsubscribe_token _ _ Hu Hin)
    as (t1 & t2 & Hsplit & Hother).
  rewrite (unsubscribe_known_token V env _ d r Hin eq_refl).
  cbn [snd].
  eexists _, _. split; [reflexivity|]. split; [reflexivity|].
  cbn [rows]. rewrite Hsplit, deactivate_unique by assumption.
  destruct (select_stats_counts env' (t1 ++ r :: t2))
    as (H1 & H2 & H3 & H4 & H5 & H6).
  destruct (select_stats_counts env' (t1 ++ deactivated r :: t2))
    as (G1 & G2 & G3 & G4 & G5 & G6).
  rewrite H1, H2, H3, H4, H5, H6, G1, G2, G3, G4, G5, G6.
  rewrite !count_app, !count_cons, !length_app.
  cbn [deactivated is_active confirmed subscribed_at List.length Bool.eqb].
  rewrite Hact. unfold count_if. cbn [Bool.eqb].
  repeat split; lia.
Qed.

End Counters.

(* ================================================================== *)
(** ** What every table built by the server satisfies *)

Section Reachable.

Variable V : Imports.

Lemma or_literal_not_empty (a : option string) (b : string) :
  b <> EmptyString -> Js.or_literal a b <> EmptyString.
Proof.
  intros Hb. unfold Js.or_literal. destruct a as [s|]; [|assumption].
  destruct (String.eqb s EmptyString) eqn:E; [assumption|].
  now apply String.eqb_neq.
Qed.

Lemma Forall_map_kept (P : subscriber -> Prop) (f : subscriber -> subscriber)
    (t : list subscriber) :
  (forall r, P r -> P (f r)) -> Forall P t -> Forall P (map f t).
Proof.
  intros Hf Ht. rewrite Forall_forall in *. intros x Hx.
  apply in_map_iff in Hx as (r & <- & Hr). auto.
Qed.

(** A request served alone keeps the rows as the route writes them. *)
Lemma serve_as_written (env : db_env) (op : operation) (d : db) :
  Forall as_written (rows d) ->
  Forall as_written (rows (snd (serve V env op d))).
Proof.
  intros H.
  destruct op as [req ctok|token| | |now]; unfold serve; simpl;
    try assumption.
  - unfold subscribe, subscribe_try, subscribe_catch.
    destruct (Js.truthy (body_email req)); simpl; [|assumption].
    destruct (sanitizeEmail V (body_email req)) as [e|a]; simpl.
    { destruct e as [|c]; simpl; [|destruct (String.eqb c unique_violation)];
        assumption. }
    destruct (validateEmail V a); simpl; [|assumption].
    destruct (select_by_email a (rows d)) as [|[i active] rest]; simpl.
    + destruct (inet_ok env _); simpl; [|assumption].
      destruct (serial_max <? next_id d); simpl; [assumption|].
      destruct (conflicts _ (rows d)); simpl; [assumption|].
      apply Forall_app. split; [assumption|].
      constructor; [|constructor].
      split; simpl; [reflexivity|].
      apply or_literal_not_empty. discriminate.
    + destruct active; simpl; [assumption|].
      apply Forall_map_kept; [|assumption].
      intros r Hr. destruct (String.eqb (email r) a); [|assumption].
      exact Hr.
  - destruct (deactivate_returning token (rows d)); simpl;
      (apply Forall_map_kept; [|assumption]); intros r Hr;
      (destruct (String.eqb (unsubscribe_token r) token); [|assumption]);
      exact Hr.
Qed.

(** X19. No operation ever confirms a subscriber, and no row is stored
    without a user agent: in every table the server builds from an empty
    one, every row has [confirmed = false] and a non-empty [user_agent],
    and [GET /api/stats] reports [confirmed_subscribers = 0]. *)
Theorem reachable_rows_as_written (env : db_env) (d : db) :
  reachable V d ->
  Forall as_written (rows d) /\
  exists st,
    fst (serve V env GetStats d)
    = inr {| status := 200; sent := JsonStats true st |} /\
    confirmed_subscribers st = 0.
Proof.
  intros Hreach.
  assert (Hc : Forall as_written (rows d)).
  { induction Hreach as [|env0 op d Hd IH]; [constructor|].
    now apply serve_as_written. }
  split; [assumption|].
  exists (select_stats env (rows d)). split; [reflexivity|].
  destruct (select_stats_counts env (rows d)) as (_ & _ & H3 & _).
  rewrite H3. unfold count. rewrite filter_none; [reflexivity|].
  intros r Hr. rewrite Forall_forall in Hc.
  destruct (Hc r Hr) as [-> _]. reflexivity.
Qed.

Lemma sorted_snoc (l : list Z) (x : Z) :
  StronglySorted Z.lt l -> Forall (fun y => y < x) l ->
  StronglySorted Z.lt (l ++ [x]).
Proof.
  induction 1 as [|y l Hl IH Hy]; intros Hx; simpl.
  - repeat constructor.
  - inversion Hx; subst. constructor; [now apply IH|].
    apply Forall_app. split; [assumption | now repeat constructor].
Qed.

Lemma ids_kept (f : subscriber -> subscriber) (d : db) :
  (forall r, id (f r) = id r) ->
  ids_in_sequence d ->
  ids_in_sequence {| rows := map f (rows d); next_id := next_id d |}.
Proof.
  intros Hf [Hs Hb]. split; simpl.
  - rewrite map_map. erewrite map_ext; [exact Hs|]. intros r. apply Hf.
  - apply Forall_map_kept; [|assumption]. intros r Hr. now rewrite Hf.
Qed.

(** Every statement keeps the ids in sequence. *)
Lemma exec_query_ids (env : db_env) (R : Type) (q : query R) (d : db) :
  1 <= next_id d -> ids_in_sequence d ->
  1 <= next_id (snd (exec_query env R q d)) /\
  ids_in_sequence (snd (exec_query env R q d)).
Proof.
  intros Hn Hi. destruct q; simpl; try (split; assumption).
  - split; [assumption|]. apply ids_kept; [|assumption]. intros r.
    now destruct (String.eqb (email r) e).
  - destruct Hi as [Hs Hb].
    assert (Hb' : Forall (fun r => 1 <= id r < next_id d + 1) (rows d)).
    { rewrite Forall_forall in *. intros r Hr. specialize (Hb r Hr). lia. }
    destruct (inet_ok env _); simpl; [|now repeat split].
    destruct (serial_max <? next_id d); simpl; [now repeat split|].
    destruct (conflicts _ _); simpl; (split; [lia|]); split; simpl;
      try assumption.
    + rewrite map_app. simpl. apply sorted_snoc; [assumption|].
      rewrite Forall_forall in *. intros y Hy.
      apply in_map_iff in Hy as (r & <- & Hr). specialize (Hb r Hr). lia.
    + apply Forall_app. split; [assumption|].
      constructor; [simpl; lia | constructor].
  - split; [assumption|]. apply ids_kept; [|assumption]. intros r.
    now destruct (String.eqb (unsubscribe_token r) tok).
Qed.

Lemma run_ids (env : db_env) {A : Type} (p : prog A) (d : db) :
  1 <= next_id d -> ids_in_sequence d ->
  1 <= next_id (snd (fst (run (exec_query env) p d))) /\
  ids_in_sequence (snd (fst (run (exec_query env) p d))).
Proof.
  revert d. induction p as [a|e|R q k IH]; intros d Hn Hi; simpl;
    try (split; assumption).
  destruct (exec_query_ids env R q d Hn Hi) as [Hn1 Hi1].
  destruct (exec_query env R q d) as [r d1]. simpl in Hn1, Hi1.
  specialize (IH r d1 Hn1 Hi1).
  now destruct (run (exec_query env) (k r) d1) as [[o d2] tr].
Qed.

(** X20. The ids follow the sequence: in every table the server builds
    from an empty one the ids are distinct, increase in insertion order,
    start at 1 and stay below the next value of the sequence, though an
    [INSERT] rejected for a unique violation consumes a value. *)
Theorem reachable_ids_in_sequence (d : db) :
  reachable V d -> ids_in_sequence d /\ NoDup (map id (rows d)).
Proof.
  intros Hreach.
  assert (H : 1 <= next_id d /\ ids_in_sequence d).
  { induction Hreach as [|env op d Hd [Hn Hi]].
    - split; [simpl; lia|]. split; simpl; constructor.
    - rewrite serve_run. now apply run_ids. }
  destruct H as [_ Hi]. split; [assumption|].
  destruct Hi as [Hs _]. revert Hs. generalize (map id (rows d)).
  induction 1 as [|x l Hl IH Hx]; constructor; [|assumption].
  intros Hin. rewrite Forall_forall in Hx. specialize (Hx x Hin). lia.
Qed.

(** Every statement keeps the two [UNIQUE] constraints. *)
Lemma exec_query_unique (env : db_env) (R : Type) (q : query R) (d : db) :
  unique_keys d -> unique_keys (snd (exec_query env R q d)).
Proof.
  intros [He Hk]. unfold unique_keys.
  destruct q; simpl; try (split; assumption); unfold reactivate, deactivate.
  - split; simpl; rewrite map_map.
    + erewrite map_ext; [exact He|]. intros r.
      now destruct (String.eqb (email r) e).
    + erewrite map_ext; [exact Hk|]. intros r.
      now destruct (String.eqb (email r) e).
  - destruct (inet_ok env _); simpl; [|split; assumption].
    destruct (serial_max <? next_id d); simpl; [split; assumption|].
    destruct (conflicts _ _) eqn:Hc; simpl; [split; assumption|].
    destruct (conflicts_false _ _ Hc) as [Hne Hnk].
    split; simpl; rewrite map_app; simpl; now apply NoDup_snoc.
  - split; simpl; rewrite map_map.
    + erewrite map_ext; [exact He|]. intros r.
      now destruct (String.eqb (unsubscribe_token r) tok).
    + erewrite map_ext; [exact Hk|]. intros r.
      now destruct (String.eqb (unsubscribe_token r) tok).
Qed.

Lemma exec_stmts_unique (l : list stmt) (d : db) :
  unique_keys d -> unique_keys (fold_left exec_stmt l d).
Proof.
  revert d. induction l as [|[env R q] l IH]; intros d H; simpl;
    [assumption|].
  apply IH. now apply exec_query_unique.
Qed.

(** X21. No interleaving of requests makes two rows share an address or
    an unsubscribe token: a handler run on a table that concurrent
    requests write to in between leaves both columns duplicate-free. *)
Theorem interleaving_keeps_keys_unique (env : db_env) (op : operation)
    (s : shared) :
  unique_keys (table s) ->
  unique_keys (table (snd (fst (run (exec_shared env) (handler V op) s)))).
Proof.
  generalize (handler V op). intros p. revert s.
  induction p as [a|e|R q k IH]; intros s H; simpl; try assumption.
  unfold exec_shared at 1.
  pose proof (exec_query_unique env R q _
                (exec_stmts_unique (hd [] (meanwhile s)) (table s) H)) as Hq.
  destruct (exec_query env R q _) as [r d2]. simpl in Hq.
  specialize (IH r {| table := d2; meanwhile := tl (meanwhile s) |} Hq).
  now destruct (run (exec_shared env) (k r) _) as [[o s2] tr].
Qed.

End Reachable.

(* ================================================================== *)
(** ** More runs on concrete requests *)

Section MoreRuns.

Import Sample.

Lemma two_unique_tokens : NoDup (map unsubscribe_token (rows two)).
Proof. exact (wf_token validator two two_well_formed). Qed.

Lemma two_lacks_carol :
  forall x, In x (rows two) -> email x <> normalized validator "carol@example.com".
Proof. simpl. intros x [<- | [<- | []]]; discriminate. Qed.

Lemma two_lacks_new_token :
  forall x, In x (rows two) -> unsubscribe_token x <> gen_random_uuid noon.
Proof. simpl. intros x [<- | [<- | []]]; discriminate. Qed.

Lemma two_has_ids_left : next_id two <= serial_max.
Proof. unfold serial_max. simpl. lia. Qed.

Lemma subscribe_rejection_caught_witness :
  fst (fst (run exec_unreachable
              (subscribe validator (post "carol@example.com") "feed") tt))
  = inr (caught_reply (PgError "08006")).
Proof.
  apply (subscribe_rejection_caught validator exec_unreachable
           (post "carol@example.com") "feed" tt (PgError "08006")).
  reflexivity.
Defined.

Lemma subscribe_non_string_email_witness :
  run (exec_query noon)
      (subscribe validator
         {| body_email := Js.Number 42; ip := None;
            remoteAddress := Some "203.0.113.7"; get_User_Agent := None |}
         "feed") two
  = (inr (json 500 false "Something went wrong. Please try again later."),
     two, []).
Proof.
  apply (subscribe_non_string_email validator (exec_query noon)
           {| body_email := Js.Number 42; ip := None;
              remoteAddress := Some "203.0.113.7"; get_User_Agent := None |}
           "feed" two).
  - reflexivity.
  - intros s. simpl. discriminate.
Defined.

Lemma subscribe_row_refused_witness :
  serve validator noon
    (PostSubscribe {| body_email := Js.Str "carol@example.com";
                      ip := Some "not-an-ip"; remoteAddress := None;
                      get_User_Agent := None |} "feed") two
  = (inr (json 500 false "Something went wrong. Please try again later."),
     two).
Proof.
  apply (subscribe_row_refused validator noon
           {| body_email := Js.Str "carol@example.com";
              ip := Some "not-an-ip"; remoteAddress := None;
              get_User_Agent := None |} "feed" "carol@example.com" two).
  - reflexivity.
  - reflexivity.
  - reflexivity.
  - exact two_lacks_carol.
  - left. reflexivity.
Defined.

Lemma unsubscribe_changes_one_flag_witness :
  exists d' t1 t2 r',
    serve validator noon (GetUnsubscribe (unsubscribe_token ada)) two
    = (inr {| status := 200; sent := unsubscribed_page |}, d') /\
    rows two = t1 ++ ada :: t2 /\
    rows d' = t1 ++ r' :: t2 /\
    next_id d' = next_id two /\
    is_active r' = false /\
    id r' = id ada /\ email r' = email ada /\
    subscribed_at r' = subscribed_at ada /\
    ip_address r' = ip_address ada /\ user_agent r' = user_agent ada /\
    confirmed r' = confirmed ada /\
    confirmation_token r' = confirmation_token ada /\
    unsubscribe_token r' = unsubscribe_token ada.
Proof.
  apply (unsubscribe_changes_one_flag validator noon two ada).
  - exact two_unique_tokens.
  - simpl. auto.
Defined.

Lemma subscribe_then_again_witness :
  let d1 := snd (serve validator noon
                   (PostSubscribe (post "carol@example.com") "feed") two) in
  serve validator later (PostSubscribe (post " Carol@Example.COM ") "beef") d1
  = (inr (json 409 false
            "This email is already subscribed to our newsletter."), d1).
Proof.
  apply (subscribe_then_again validator noon later
           (post "carol@example.com") (post " Carol@Example.COM ")
           "feed" "beef" "carol@example.com" " Carol@Example.COM " two).
  - reflexivity.
  - reflexivity.
  - reflexivity.
  - exact two_lacks_carol.
  - exact two_lacks_new_token.
  - reflexivity.
  - exact two_has_ids_left.
  - reflexivity.
  - reflexivity.
  - reflexivity.
Defined.

Lemma subscribe_then_unsubscribe_witness :
  exists n d2,
    rows (snd (serve validator noon
                 (PostSubscribe (post "carol@example.com") "feed") two))
    = rows two ++ [n] /\
    email n = normalized validator "carol@example.com" /\
    is_active n = true /\
    serve validator later (GetUnsubscribe (gen_random_uuid noon))
      (snd (serve validator noon
              (PostSubscribe (post "carol@example.com") "feed") two))
    = (inr {| status := 200; sent := unsubscribed_page |}, d2) /\
    rows d2 = rows two ++ [deactivated n].
Proof.
  apply (subscribe_then_unsubscribe validator noon later
           (post "carol@example.com") "feed" "carol@example.com" two).
  - reflexivity.
  - reflexivity.
  - reflexivity.
  - exact two_lacks_carol.
  - exact two_lacks_new_token.
  - reflexivity.
  - exact two_has_ids_left.
Defined.

Lemma unsubscribe_then_resubscribe_witness :
  exists t1 t2,
    rows two = t1 ++ ada :: t2 /\
    serve validator later (PostSubscribe (post "Ada@Example.com") "beef")
      (snd (serve validator noon (GetUnsubscribe (unsubscribe_token ada)) two))
    = (inr (json 200 true
              "Welcome back! You've been resubscribed to our newsletter."),
       {| rows := t1 ++ reactivated later ada :: t2; next_id := next_id two |}).
Proof.
  apply (unsubscribe_then_resubscribe validator noon later
           (post "Ada@Example.com") "beef" "Ada@Example.com" two ada).
  - exact two_well_formed.
  - simpl. auto.
  - reflexivity.
  - reflexivity.
  - reflexivity.
Defined.

Lemma stats_after_subscription_witness :
  exists st st',
    fst (serve validator later GetStats two)
    = inr {| status := 200; sent := JsonStats true st |} /\
    fst (serve validator later GetStats
           (snd (serve validator noon
                   (PostSubscribe (post "carol@example.com") "feed") two)))
    = inr {| status := 200; sent := JsonStats true st' |} /\
    total_subscribers st' = total_subscribers st + 1 /\
    active_subscribers st' = active_subscribers st + 1 /\
    confirmed_subscribers st' = confirmed_subscribers st /\
    today_signups st' = today_signups st + 1 /\
    week_signups st' = week_signups st + 1 /\
    month_signups st' = month_signups st + 1.
Proof.
  apply (stats_after_subscription validator noon later
           (post "carol@example.com") "feed" "carol@example.com" two).
  - reflexivity.
  - reflexivity.
  - reflexivity.
  - exact two_lacks_carol.
  - exact two_lacks_new_token.
  - reflexivity.
  - exact two_has_ids_left.
  - apply Z.leb_le. reflexivity.
Defined.

Lemma stats_after_unsubscribe_witness :
  exists st st',
    fst (serve validator later GetStats two)
    = inr {| status := 200; sent := JsonStats true st |} /\
    fst (serve validator later GetStats
           (snd (serve validator noon
                   (GetUnsubscribe (unsubscribe_token ada)) two)))
    = inr {| status := 200; sent := JsonStats true st' |} /\
    active_subscribers st' = active_subscribers st - 1 /\
    total_subscribers st' = total_subscribers st /\
    confirmed_subscribers st' = confirmed_subscribers st /\
    today_signups st' = today_signups st /\
    week_signups st' = week_signups st /\
    month_signups st' = month_signups st.
Proof.
  apply (stats_after_unsubscribe validator noon later two ada).
  - exact two_unique_tokens.
  - simpl. auto.
  - reflexivity.
Defined.

Lemma reachable_rows_as_written_witness :
  Forall as_written
    (rows (snd (serve validator noon
                  (PostSubscribe (post "a@b.com") "feed") empty_db))) /\
  exists st,
    fst (serve validator later GetStats
           (snd (serve validator noon
                   (PostSubscribe (post "a@b.com") "feed") empty_db)))
    = inr {| status := 200; sent := JsonStats true st |} /\
    confirmed_subscribers st = 0.
Proof.
  apply (reachable_rows_as_written validator later
           (snd (serve validator noon
                   (PostSubscribe (post "a@b.com") "feed") empty_db))).
  apply reach_serve, reach_empty.
Defined.

Lemma reachable_ids_in_sequence_witness :
  ids_in_sequence
    (snd (serve validator later (PostSubscribe (post "c@d.org") "beef")
            (snd (serve validator noon
                    (PostSubscribe (post "a@b.com") "feed") empty_db)))) /\
  NoDup (map id
    (rows (snd (serve validator later (PostSubscribe (post "c@d.org") "beef")
                  (snd (serve validator noon
                          (PostSubscribe (post "a@b.com") "feed") empty_db)))))).
Proof.
  apply (reachable_ids_in_sequence validator).
  apply reach_serve, reach_serve, reach_empty.
Defined.

Lemma interleaving_keeps_keys_unique_witness :
  unique_keys
    (table (snd (fst (run (exec_shared noon)
                        (handler validator
                           (PostSubscribe (post "carol@example.com") "feed"))
                        racing)))).
Proof.
  apply (interleaving_keeps_keys_unique validator noon
           (PostSubscribe (post "carol@example.com") "feed") racing).
  split; [exact (wf_email validator two two_well_formed)
         | exact two_unique_tokens].
Defined.

Lemma page_request_is_present_witness :
  Js.truthy (Js.Str "ada@example.com") = true /\
  fst (fst (run (exec_query noon)
              (subscribe validator
                 (Page.posted "ada@example.com" (Some "203.0.113.7") None None)
                 "feed") two))
  <> inr (json 400 false "Email address is required.").
Proof.
  apply (page_request_is_present validator (exec_query noon) validator typed
           "ada@example.com" "feed" (Some "203.0.113.7") None None two).
  reflexivity.
Defined.

Lemma page_shows_server_reply_witness :
  exists c success m,
    fst (fst (run (exec_query noon)
                (subscribe validator
                   (Page.posted "ada@example.com" (Some "203.0.113.7") None None)
                   "feed") two))
    = inr (json c success m) /\
    (success = true <-> c = 200 \/ c = 201) /\
    Page.formMessage_textContent
      (Page.on_data success m (fst (Page.submit validator typed))) = m /\
    Page.formMessage_className
      (Page.on_data success m (fst (Page.submit validator typed)))
    = (if success then "form-message success" else "form-message error") /\
    Page.notifyBtn_disabled
      (Page.on_data success m (fst (Page.submit validator typed))) = false /\
    Page.notifyBtn_textContent
      (Page.on_data success m (fst (Page.submit validator typed))) = Page.button_label /\
    Page.emailInput_value
      (Page.on_data success m (fst (Page.submit validator typed)))
    = (if success then EmptyString else Page.emailInput_value typed).
Proof.
  apply (page_shows_server_reply validator (exec_query noon) validator typed
           (fst (Page.submit validator typed)) "ada@example.com" "feed"
           (Some "203.0.113.7") None None two).
  reflexivity.
Defined.

End MoreRuns.
